(** * FileIcon: the icon generation pipeline of [server/routes.ts]

    A shallow embedding of the ICNS encoder [buildIcns], of the two request
    handlers registered by [registerRoutes] ([POST /api/convert] and
    [GET /api/download/:filename]) and of the deferred clean-up they
    schedule, followed by the properties of the specification that concern
    them.

    Part I holds the model, Part II the proofs. *)

From Stdlib Require Import ZArith Lia List Bool Sorted.
From Stdlib.Strings Require Import String Ascii Byte.
From stdpp Require Import base option list gmap strings.

Local Open Scope string_scope.
Local Open Scope list_scope.
Local Open Scope Z_scope.

(** ** Part I: the model *)

(** *** Exceptions and fallible results

    A JavaScript call either returns a value or throws.  The exceptions that
    can occur in the modelled code are the [RangeError]s of the Buffer
    methods, [ENOENT] of [fs.unlinkSync], and the rejections of the two
    external libraries (sharp and png-to-ico). *)

Inductive exn : Type :=
| ERR_OUT_OF_RANGE (what : string)
| ENOENT (path : string)
| ExternalError (message : string).

Inductive result (A : Type) : Type :=
| Ok (a : A)
| Throw (e : exn).

Arguments Ok {A} a.
Arguments Throw {A} e.

#[global] Instance result_ret : MRet result := fun A a => Ok a.
#[global] Instance result_bind : MBind result := fun A B f m =>
  match m with
  | Ok a => f a
  | Throw e => Throw e
  end.

Definition is_Ok {A} (r : result A) : bool :=
  match r with Ok _ => true | Throw _ => false end.

(** *** Node's [Buffer]

    A buffer is the list of its bytes.  The methods mutate their receiver in
    place; here they return the updated buffer.  Offsets and lengths are
    JavaScript numbers, modelled by [Z].  Allocation itself is assumed to
    succeed. *)

Definition byte_of_Z (z : Z) : byte :=
  default x00 (Byte.of_N (Z.to_N (z mod 256))).

Definition Z_of_byte (b : byte) : Z := Z.of_N (Byte.to_N b).

Module Buffer.

Definition length (buf : list byte) : Z := Z.of_nat (List.length buf).

(** [Buffer.alloc(size)]: a zero-filled buffer. *)
Definition alloc (size : Z) : list byte := replicate (Z.to_nat size) x00.

(** Overwrite [buf] from index [off] on with [src]; what does not fit
    before the end of [buf] is dropped, the length never changes. *)
Definition set_bytes (buf : list byte) (off : nat) (src : list byte)
  : list byte :=
  take off buf ++ take (List.length buf - off)%nat src
    ++ drop (off + List.length src)%nat buf.

(** [buf.write(string, offset, length, "ascii")]: one byte per character;
    [offset] and [length] are validated against the buffer length, then
    [length] is clamped to the room that remains. *)
Definition write (buf : list byte) (str : string) (offset len : Z)
  : result (list byte) :=
  if (offset <? 0) || (length buf <? offset)
  then Throw (ERR_OUT_OF_RANGE "offset")
  else
    let remaining := length buf - offset in
    if (len <? 0) || (length buf <? len)
    then Throw (ERR_OUT_OF_RANGE "length")
    else
      let len := if remaining <? len then remaining else len in
      Ok (set_bytes buf (Z.to_nat offset)
            (byte_of_ascii <$> take (Z.to_nat len) (list_ascii_of_string str))).

(** The four bytes of an unsigned 32-bit value, most significant first. *)
Definition uint32BE (value : Z) : list byte :=
  [ byte_of_Z (Z.shiftr value 24); byte_of_Z (Z.shiftr value 16);
    byte_of_Z (Z.shiftr value 8); byte_of_Z value ].

(** [buf.writeUInt32BE(value, offset)]: the value must fit 32 bits and the
    four bytes must lie inside the buffer. *)
Definition writeUInt32BE (buf : list byte) (value offset : Z)
  : result (list byte) :=
  if (value <? 0) || (4294967295 <? value)
  then Throw (ERR_OUT_OF_RANGE "value")
  else if (offset <? 0) || (length buf <? offset + 4)
  then Throw (ERR_OUT_OF_RANGE "offset")
  else Ok (set_bytes buf (Z.to_nat offset) (uint32BE value)).

(** [buf.readUInt32BE(offset)], the inverse reading. *)
Definition readUInt32BE (buf : list byte) (offset : Z) : result Z :=
  if (offset <? 0) || (length buf <? offset + 4)
  then Throw (ERR_OUT_OF_RANGE "offset")
  else
    match take 4 (drop (Z.to_nat offset) buf) with
    | [b0; b1; b2; b3] =>
        Ok (Z_of_byte b0 * 2 ^ 24 + Z_of_byte b1 * 2 ^ 16
            + Z_of_byte b2 * 2 ^ 8 + Z_of_byte b3)
    | _ => Throw (ERR_OUT_OF_RANGE "offset")
    end.

(** [source.copy(target, targetStart)]: copies as much of [source] as
    fits; a start at or past the end of the target copies nothing. *)
Definition copy (source target : list byte) (targetStart : Z)
  : result (list byte) :=
  if targetStart <? 0
  then Throw (ERR_OUT_OF_RANGE "targetStart")
  else Ok (set_bytes target (Z.to_nat targetStart) source).

End Buffer.

(** The bytes of an ASCII string literal. *)
Definition ascii_bytes (s : string) : list byte :=
  byte_of_ascii <$> list_ascii_of_string s.

(** *** The ICNS encoder *)

Record IcnsEntry : Type := { osType : string; data : list byte }.

(** First loop of [buildIcns]: [totalSize += 8 + entry.data.length]. *)
Fixpoint buildIcns_measure (pngBuffers : list IcnsEntry) (totalSize : Z) : Z :=
  match pngBuffers with
  | [] => totalSize
  | entry :: rest =>
      buildIcns_measure rest (totalSize + (8 + Buffer.length (data entry)))
  end.

(** Second loop of [buildIcns]: tag, length and payload of each entry are
    written at the running [offset]. *)
Fixpoint buildIcns_fill (pngBuffers : list IcnsEntry) (buf : list byte)
    (offset : Z) : result (list byte) :=
  match pngBuffers with
  | [] => Ok buf
  | entry :: rest =>
      buf ← Buffer.write buf (osType entry) offset 4;
      buf ← Buffer.writeUInt32BE buf (Buffer.length (data entry) + 8) (offset + 4);
      buf ← Buffer.copy (data entry) buf (offset + 8);
      buildIcns_fill rest buf (offset + (8 + Buffer.length (data entry)))
  end.

Definition buildIcns (pngBuffers : list IcnsEntry) : result (list byte) :=
  let totalSize := buildIcns_measure pngBuffers 8 in
  let buf := Buffer.alloc totalSize in
  buf ← Buffer.write buf "icns" 0 4;
  buf ← Buffer.writeUInt32BE buf totalSize 4;
  buildIcns_fill pngBuffers buf 8.

(** *** Regular expressions

    The download route validates file names with the regular expression
    [/^[a-z0-9]+\.(ico|icns)$/].  Expressions are matched by derivatives; the
    anchors [^] and [$] (no flag is set) make [test] a match of the whole
    input. *)

Inductive regex : Type :=
| Never
| Empty
| Class (p : ascii → bool)
| Seq (r1 r2 : regex)
| Alt (r1 r2 : regex)
| Star (r : regex).

(** [r+] *)
Definition Plus (r : regex) : regex := Seq r (Star r).

(** A literal character and a literal word. *)
Definition Chr (c : ascii) : regex := Class (Ascii.eqb c).

Fixpoint Lit (w : list ascii) : regex :=
  match w with
  | [] => Empty
  | c :: w' => Seq (Chr c) (Lit w')
  end.

(** A character range [lo-hi]. *)
Definition in_range (lo hi c : ascii) : bool :=
  (N_of_ascii lo <=? N_of_ascii c)%N && (N_of_ascii c <=? N_of_ascii hi)%N.

(** [[a-z0-9]] *)
Definition lower_or_digit (c : ascii) : bool :=
  in_range "a" "z" c || in_range "0" "9" c.

Fixpoint nullable (r : regex) : bool :=
  match r with
  | Never => false
  | Empty => true
  | Class _ => false
  | Seq r1 r2 => nullable r1 && nullable r2
  | Alt r1 r2 => nullable r1 || nullable r2
  | Star _ => true
  end.

Fixpoint deriv (c : ascii) (r : regex) : regex :=
  match r with
  | Never => Never
  | Empty => Never
  | Class p => if p c then Empty else Never
  | Seq r1 r2 =>
      if nullable r1
      then Alt (Seq (deriv c r1) r2) (deriv c r2)
      else Seq (deriv c r1) r2
  | Alt r1 r2 => Alt (deriv c r1) (deriv c r2)
  | Star r1 => Seq (deriv c r1) (Star r1)
  end.

Fixpoint matches (r : regex) (w : list ascii) : bool :=
  match w with
  | [] => nullable r
  | c :: w' => matches (deriv c r) w'
  end.

(** [regexp.test(s)] for an expression anchored at both ends. *)
Definition RegExp_test (r : regex) (s : string) : bool :=
  matches r (list_ascii_of_string s).

(** [/^[a-z0-9]+\.(ico|icns)$/] *)
Definition filename_re : regex :=
  Seq (Plus (Class lower_or_digit))
      (Seq (Chr ".")
           (Alt (Lit (list_ascii_of_string "ico"))
                (Lit (list_ascii_of_string "icns")))).

(** *** Strings, numbers and paths

    [String.prototype.slice] for indices that are not negative, the base-36
    rendering of integers, and [path.extname] on a name without directory
    separators.  A string is a sequence of 8-bit characters: every string
    the handlers build is ASCII, and in a requested file name a character
    beyond that range fails the pattern like any other character outside
    [a-z0-9.]. *)

Definition String_slice (s : string) (start stop : nat) : string :=
  substring start (stop - start) s.

Definition digit36 (d : Z) : ascii :=
  nth (Z.to_nat d)
      (list_ascii_of_string "0123456789abcdefghijklmnopqrstuvwxyz") "0"%char.

(** Digits of [n] in base 36, least significant produced first and pushed in
    front of [acc]; [fuel] bounds the number of digits. *)
Fixpoint digits36 (fuel : nat) (n : Z) (acc : list ascii) : list ascii :=
  match fuel with
  | O => acc
  | S fuel' =>
      let acc' := digit36 (n mod 36) :: acc in
      if n / 36 =? 0 then acc' else digits36 fuel' (n / 36) acc'
  end.

(** [n.toString(36)] for an integer [n]: a number of [k] bits has at most
    [k] digits. *)
Definition Number_toString36 (n : Z) : string :=
  let m := Z.abs n in
  let ds := string_of_list_ascii (digits36 (S (Z.to_nat (Z.log2 m))) m []) in
  if n <? 0 then String "-" ds else ds.

(** The outcome of [Math.random().toString(36)].  The number drawn lies in
    0 <= x < 1, so its rendering has one integer digit and, unless the
    fraction is exhausted at once, a point followed by the digits of the
    fraction (each in 0..35); how many digits the engine prints is left
    open. *)
Record RandomDraw : Type := { int_digit : Z; frac_digits : list Z }.

Definition random_toString36 (r : RandomDraw) : string :=
  String (digit36 (int_digit r))
    match frac_digits r with
    | [] => ""
    | ds => String "." (string_of_list_ascii (digit36 <$> ds))
    end.

(** The suffix of [s] that starts at its last point, if there is one. *)
Fixpoint last_dot_suffix (s : string) : option string :=
  match s with
  | "" => None
  | String c s' =>
      match last_dot_suffix s' with
      | Some t => Some t
      | None => if Ascii.eqb c "." then Some s else None
      end
  end.

(** [path.extname(name)]: a point in first position starts no extension. *)
Definition path_extname (name : string) : string :=
  match name with
  | "" => ""
  | String _ s' => default "" (last_dot_suffix s')
  end.

(** *** The server

    The output directory is a finite map from file names to contents: every
    path the handlers build is [path.join(outputDir, name)] for a [name]
    without separator, so the name identifies the file.  Pending timers keep
    the variables their callback captured.  [calls] records, oldest first,
    the calls made to the collaborators (sharp, png-to-ico, [fs], the
    encoder and [setTimeout]); it is there to state which calls a handler
    makes and has no influence on behaviour.

    A handler runs to completion on the world it is given: the interleaving
    of two requests between their [await]s is outside this model. *)

Record RGBA : Type := { r : Z; g : Z; b : Z; alpha : Z }.

(** One pipeline [sharp(input).resize(width, height, {fit, background})
    .png().toBuffer()]. *)
Record ResizeRequest : Type := {
  input : list byte;
  width : Z;
  height : Z;
  fit : string;
  background : RGBA
}.

Record Timer : Type := {
  delay : Z;
  timer_icoPath : string;
  timer_icnsPath : string
}.

Inductive Call : Type :=
| CallSharp (req : ResizeRequest)
| CallPngToIco (pngs : list (list byte))
| CallBuildIcns (entries : list IcnsEntry)
| CallExistsSync (path : string)
| CallWriteFileSync (path : string) (contents : list byte)
| CallUnlinkSync (path : string)
| CallSendFile (path : string)
| CallSetTimeout (ms : Z).

Record World : Type := {
  files : gmap string (list byte);
  timers : list Timer;
  calls : list Call
}.

Definition log (c : Call) (w : World) : World :=
  {| files := files w; timers := timers w; calls := calls w ++ [c] |}.

(** What a handler sends back. *)
Inductive Response : Type :=
| Json (icoUrl icnsUrl : string)
| Status (code : Z) (text : string)
| ErrorStatus (code : Z) (err : exn)
| File (contentType contentDisposition : string) (contents : list byte).

(** Code that reads and changes the world and may throw. *)
Definition Action (A : Type) : Type := World → result A * World.

#[global] Instance Action_ret : MRet Action := fun A a w => (Ok a, w).
#[global] Instance Action_bind : MBind Action := fun A B f m w =>
  match m w with
  | (Ok a, w') => f a w'
  | (Throw e, w') => (Throw e, w')
  end.

(** [try { body } catch (err) { handler }] *)
Definition try_catch {A} (body : Action A) (handler : exn → Action A)
  : Action A := fun w =>
  match body w with
  | (Ok a, w') => (Ok a, w')
  | (Throw e, w') => handler e w'
  end.

(** A synchronous call that may throw, recorded in [calls]. *)
Definition call {A} (c : Call) (res : result A) : Action A := fun w =>
  (res, log c w).

(** [Promise.all(ps)]: every promise of the array has been started when
    [Promise.all] is entered, so each one runs whether or not another
    rejects; the outcome is the array of values, or a rejection.  When
    several promises reject, which rejection is reported depends on timing;
    here it is the first in array order. *)
Fixpoint Promise_all {A} (ps : list (Action A)) : Action (list A) := fun w =>
  match ps with
  | [] => (Ok [], w)
  | p :: rest =>
      let '(x, w1) := p w in
      let '(xs, w2) := Promise_all rest w1 in
      (a ← x; l ← xs; Ok (a :: l), w2)
  end.

Module fs.

Definition existsSync (path : string) : Action bool := fun w =>
  (Ok (bool_decide (is_Some (files w !! path))), log (CallExistsSync path) w).

Definition writeFileSync (path : string) (contents : list byte) : Action unit :=
  fun w =>
    (Ok (),
     log (CallWriteFileSync path contents)
       {| files := <[path := contents]> (files w);
          timers := timers w; calls := calls w |}).

Definition unlinkSync (path : string) : Action unit := fun w =>
  match files w !! path with
  | Some _ =>
      (Ok (),
       log (CallUnlinkSync path)
         {| files := delete path (files w);
            timers := timers w; calls := calls w |})
  | None => (Throw (ENOENT path), log (CallUnlinkSync path) w)
  end.

End fs.

(** [setTimeout(callback, ms)], the callback being the clean-up closure over
    [icoPath] and [icnsPath]. *)
Definition setTimeout (icoPath icnsPath : string) (ms : Z) : Action unit := fun w =>
  (Ok (),
   log (CallSetTimeout ms)
     {| files := files w;
        timers := timers w ++ [ {| delay := ms; timer_icoPath := icoPath;
                                   timer_icnsPath := icnsPath |} ];
        calls := calls w |}).

(** The body of the timer callback of the conversion handler. *)
Definition cleanup (icoPath icnsPath : string) : Action unit :=
  try_catch
    (e1 ← fs.existsSync icoPath;
     (if e1 : bool then fs.unlinkSync icoPath else mret ());;
     e2 ← fs.existsSync icnsPath;
     (if e2 : bool then fs.unlinkSync icnsPath else mret ()))
    (fun _ => mret ()).

(** The event loop runs the callback of the [i]-th pending timer, which
    leaves the queue. *)
Definition fire_timer (i : nat) (w : World) : World :=
  match timers w !! i with
  | None => w
  | Some t =>
      let w' := {| files := files w; timers := delete i (timers w);
                   calls := calls w |} in
      snd (cleanup (timer_icoPath t) (timer_icnsPath t) w')
  end.

Definition ICO_SIZES : list Z := [16; 24; 32; 48; 64; 128; 256].

Definition ICNS_SIZES : list (Z * string) :=
  [ (16, "icp4"); (32, "icp5"); (64, "icp6"); (128, "ic07");
    (256, "ic08"); (512, "ic09"); (1024, "ic10") ].

Definition dquote : string := String (ascii_of_nat 34) "".

Section Server.

(** The external collaborators: the outcome of one sharp pipeline and of
    one call of png-to-ico. *)
Variable sharp : ResizeRequest → result (list byte).
Variable pngToIco : list (list byte) → result (list byte).

(** [sharp(imageBuffer).resize(size, size, {fit: "contain", background:
    {r: 0, g: 0, b: 0, alpha: 0}}).png().toBuffer()] *)
Definition resize_png (imageBuffer : list byte) (size : Z) : Action (list byte) :=
  let req := {| input := imageBuffer; width := size; height := size;
                fit := "contain";
                background := {| r := 0; g := 0; b := 0; alpha := 0 |} |} in
  call (CallSharp req) (sharp req).

(** The handler of [POST /api/convert].  [now] is the value of
    [Date.now()], [rnd] the draw of [Math.random()], [file] is
    [req.file]. *)
Definition convert (now : Z) (rnd : RandomDraw) (file : option (list byte))
  : Action Response :=
  try_catch
    (match file with
     | None => mret (Status 400 "No image file provided")
     | Some imageBuffer =>
         let id := Number_toString36 now
                   +:+ String_slice (random_toString36 rnd) 2 8 in
         pngBuffersForIco ←
           Promise_all ((fun size => resize_png imageBuffer size) <$> ICO_SIZES);
         icoBuffer ← call (CallPngToIco pngBuffersForIco)
                          (pngToIco pngBuffersForIco);
         let icoFilename := id +:+ ".ico" in
         let icoPath := icoFilename in
         fs.writeFileSync icoPath icoBuffer;;
         icnsEntries ←
           Promise_all
             ((fun '(size, osType) =>
                 data ← resize_png imageBuffer size;
                 mret {| osType := osType; data := data |}) <$> ICNS_SIZES);
         icnsBuffer ← call (CallBuildIcns icnsEntries) (buildIcns icnsEntries);
         let icnsFilename := id +:+ ".icns" in
         let icnsPath := icnsFilename in
         fs.writeFileSync icnsPath icnsBuffer;;
         setTimeout icoPath icnsPath (5 * 60 * 1000);;
         mret (Json ("/api/download/" +:+ icoFilename)
                    ("/api/download/" +:+ icnsFilename))
     end)
    (fun err => mret (ErrorStatus 500 err)).

(** [res.sendFile(filePath)] with the two headers set before it.  The
    handler has just checked that the file exists; were it gone, Express
    would answer 404 by itself. *)
Definition sendFile (filePath contentType contentDisposition : string)
  : Action Response := fun w =>
  (Ok match files w !! filePath with
      | Some contents => File contentType contentDisposition contents
      | None => Status 404 "Not Found"
      end,
   log (CallSendFile filePath) w).

(** The handler of [GET /api/download/:filename]. *)
Definition download (filename : string) : Action Response :=
  if negb (RegExp_test filename_re filename)
  then mret (Status 400 "Invalid filename")
  else
    let filePath := filename in
    found ← fs.existsSync filePath;
    if negb found
    then mret (Status 404 "File not found or expired")
    else
      let ext := String_slice (path_extname filename) 1
                   (String.length (path_extname filename)) in
      let mimeType :=
        if String.eqb ext "ico" then "image/x-icon" else "image/icns" in
      sendFile filePath mimeType
        ("attachment; filename=" +:+ dquote +:+ filename +:+ dquote).

End Server.

(** *** The container layout in the words of the specification

    These definitions follow the specification, not the code: the total
    length is 8 plus, for each entry, 8 plus the length of its payload; the
    container is the magic, the total length, then for each entry its tag,
    its length and its payload.  [be_value] reads bytes as a big-endian
    number. *)

Definition be_value (bs : list byte) : Z :=
  fold_left (fun acc x => acc * 256 + Z_of_byte x) bs 0.

Fixpoint icns_total_length (entries : list IcnsEntry) : Z :=
  match entries with
  | [] => 8
  | e :: rest => (8 + Buffer.length (data e)) + icns_total_length rest
  end.

Definition icns_entry_layout (e : IcnsEntry) : list byte :=
  ascii_bytes (osType e)
    ++ Buffer.uint32BE (8 + Buffer.length (data e)) ++ data e.

Definition icns_layout (entries : list IcnsEntry) : list byte :=
  ascii_bytes "icns" ++ Buffer.uint32BE (icns_total_length entries)
    ++ concat (icns_entry_layout <$> entries).

(** What the code leaves in the four tag bytes for a tag of any length: its
    first four characters, and zero bytes where the tag is shorter. *)
Definition tag_field (tag : string) : list byte :=
  let cs := take 4 (ascii_bytes tag) in
  cs ++ replicate (4 - List.length cs) x00.

Definition icns_entry_bytes (e : IcnsEntry) : list byte :=
  tag_field (osType e)
    ++ Buffer.uint32BE (Buffer.length (data e) + 8) ++ data e.

(** The tags of the fixed table. *)
Definition known_tag (tag : string) : bool :=
  bool_decide (tag ∈ ICNS_SIZES.*2).

(** The outcome of an array of calls: all the values, or the first error. *)
Fixpoint all_results {A} (rs : list (result A)) : result (list A) :=
  match rs with
  | [] => Ok []
  | x :: rest => a ← x; l ← all_results rest; Ok (a :: l)
  end.

Definition add_calls (cs : list Call) (w : World) : World :=
  {| files := files w; timers := timers w; calls := calls w ++ cs |}.

(** The identifier and the two file names of a conversion. *)
Definition conversion_id (now : Z) (rnd : RandomDraw) : string :=
  Number_toString36 now +:+ String_slice (random_toString36 rnd) 2 8.

Definition resize_request (imageBuffer : list byte) (size : Z) : ResizeRequest :=
  {| input := imageBuffer; width := size; height := size; fit := "contain";
     background := {| r := 0; g := 0; b := 0; alpha := 0 |} |}.

(** The requests the conversion handler sends to sharp for one image, and
    the outcome of the pipeline of one row of the ICNS table. *)
Definition ico_requests (imageBuffer : list byte) : list ResizeRequest :=
  resize_request imageBuffer <$> ICO_SIZES.

Definition icns_requests (imageBuffer : list byte) : list ResizeRequest :=
  resize_request imageBuffer <$> ICNS_SIZES.*1.

Definition entry_result (sharp : ResizeRequest → result (list byte))
    (imageBuffer : list byte) (row : Z * string) : result IcnsEntry :=
  d ← sharp (resize_request imageBuffer row.1);
  Ok {| osType := row.2; data := d |}.

Definition is_CallSharp (c : Call) : bool :=
  match c with CallSharp _ => true | _ => false end.

(** The words an expression denotes; the matcher is proved to decide this
    relation. *)
Inductive lang : regex → list ascii → Prop :=
| lang_Empty : lang Empty []
| lang_Class p c : p c = true → lang (Class p) [c]
| lang_Seq r1 r2 w1 w2 :
    lang r1 w1 → lang r2 w2 → lang (Seq r1 r2) (w1 ++ w2)
| lang_Alt_l r1 r2 w : lang r1 w → lang (Alt r1 r2) w
| lang_Alt_r r1 r2 w : lang r2 w → lang (Alt r1 r2) w
| lang_Star_nil r1 : lang (Star r1) []
| lang_Star_cons r1 w1 w2 :
    lang r1 w1 → lang (Star r1) w2 → lang (Star r1) (w1 ++ w2).

(** Reading a base-36 numeral back. *)
Definition digit_value (c : ascii) : Z :=
  let n := Z.of_N (N_of_ascii c) in
  if in_range "0" "9" c then n - 48 else n - 87.

Definition value36 (s : string) : Z :=
  fold_left (fun acc c => acc * 36 + digit_value c) (list_ascii_of_string s) 0.

(** Lowercase letters and digits only. *)
Definition alnum (cs : list ascii) : Prop :=
  Forall (fun c => lower_or_digit c = true) cs.

(** An identifier the download route accepts: at least one character, all
    of them lowercase letters or digits. *)
Definition well_formed_id (id : string) : Prop :=
  id ≠ "" ∧ alnum (list_ascii_of_string id).

(** Retrieval is by identifier and kind; the kind selects the extension of
    the file name. *)
Inductive Kind : Type := Ico | Icns.

Definition artifact_name (id : string) (kind : Kind) : string :=
  id +:+ match kind with Ico => ".ico" | Icns => ".icns" end.

Definition kind_mimeType (kind : Kind) : string :=
  match kind with Ico => "image/x-icon" | Icns => "image/icns" end.

(** The two headers the download handler sets. *)
Definition download_mimeType (filename : string) : string :=
  if String.eqb
       (String_slice (path_extname filename) 1
          (String.length (path_extname filename))) "ico"
  then "image/x-icon" else "image/icns".

Definition download_disposition (filename : string) : string :=
  "attachment; filename=" +:+ dquote +:+ filename +:+ dquote.

(** Collaborators for running the handlers on concrete inputs: a resizer
    that answers with a two-byte stand-in for the PNG, one that rejects
    every edge above 256, and an ICO encoder that concatenates. *)
Definition sample_sharp (req : ResizeRequest) : result (list byte) :=
  Ok [x89; byte_of_Z (width req / 4)].

Definition sample_sharp_small (req : ResizeRequest) : result (list byte) :=
  if width req <=? 256 then sample_sharp req
  else Throw (ExternalError "resize failed").

Definition sample_pngToIco (pngs : list (list byte)) : result (list byte) :=
  Ok (concat pngs).

Definition sample_draw : RandomDraw :=
  {| int_digit := 0; frac_digits := [1; 2; 3; 35; 10; 11; 12; 13] |}.

Definition empty_world : World := {| files := ∅; timers := []; calls := [] |}.

(** *** The upload filter

    The [fileFilter] callback given to multer decides on the declared MIME
    type of the uploaded part alone: [cb(null, true)] accepts it,
    [cb(new Error(message))] rejects it.  [limits.fileSize] is the bound
    multer enforces on the size of the part. *)

Definition allowed : list string := ["image/png"; "image/jpeg"; "image/jpg"].

Inductive FilterOutcome : Type :=
| Accepted
| Rejected (message : string).

Definition fileFilter (mimetype : string) : FilterOutcome :=
  if bool_decide (mimetype ∈ allowed)
  then Accepted
  else Rejected "Only PNG and JPG files are allowed".

Definition fileSize : Z := 10 * 1024 * 1024.

(** An entry with its tag cut after four characters. *)
Definition clip_tag (e : IcnsEntry) : IcnsEntry :=
  {| osType := String_slice (osType e) 0 4; data := data e |}.



(** *** The page ([client/src/pages/home.tsx])

    The state of the [Home] component is the tuple of its [useState] cells;
    each handler is a function on that state.  The toasts shown and the
    downloads started are kept in two logs, and [inFlight] counts the
    [fetch] calls of [handleConvert] that have not settled yet; none of the
    three is read by the handlers. *)

(** [\w] *)
Definition word_char (c : ascii) : bool :=
  in_range "a" "z" c || in_range "A" "Z" c || in_range "0" "9" c
  || Ascii.eqb c "_".

(** [/\.\w+$/] from the position where a match starts. *)
Definition extension_re : regex := Seq (Chr ".") (Plus (Class word_char)).

(** [s.replace(/R$/, replacement)] for an expression that ends in [$] and a
    replacement without [$] patterns: the match starts at the leftmost
    position from which [R] matches all that remains, and it is replaced;
    without a match the string is returned as it is. *)
Fixpoint replace_to_end (re : regex) (replacement w : list ascii) : list ascii :=
  if matches re w then replacement
  else match w with
       | [] => []
       | c :: w' => c :: replace_to_end re replacement w'
       end.

Definition String_replace_to_end (re : regex) (replacement s : string) : string :=
  string_of_list_ascii
    (replace_to_end re (list_ascii_of_string replacement)
       (list_ascii_of_string s)).

(** [s.split(sep)] for a separator of one character. *)
Fixpoint split_on (sep : ascii) (w : list ascii) : list (list ascii) :=
  match w with
  | [] => [[]]
  | c :: w' =>
      if Ascii.eqb c sep then [] :: split_on sep w'
      else match split_on sep w' with
           | [] => [[c]]
           | piece :: pieces => (c :: piece) :: pieces
           end
  end.

Definition String_split (sep : ascii) (s : string) : list string :=
  string_of_list_ascii <$> split_on sep (list_ascii_of_string s).

Module Home.

Inductive ConvertState : Type := idle | uploading | converting | done | error.

(** What the handlers read of a [File]. *)
Record File : Type := { name : string; type : string; size : Z }.

Record Toast : Type := {
  title : string;
  description : string;
  destructive : bool
}.

Record State : Type := {
  file : option File;
  preview : option string;
  convertState : ConvertState;
  dragOver : bool;
  icoUrl : option string;
  icnsUrl : option string;
  toasts : list Toast;
  downloads : list (string * string);
  inFlight : nat
}.

Definition initial : State :=
  {| file := None; preview := None; convertState := idle; dragOver := false;
     icoUrl := None; icnsUrl := None; toasts := []; downloads := [];
     inFlight := 0 |}.

Definition toast (t : Toast) (s : State) : State :=
  {| file := file s; preview := preview s; convertState := convertState s;
     dragOver := dragOver s; icoUrl := icoUrl s; icnsUrl := icnsUrl s;
     toasts := toasts s ++ [t]; downloads := downloads s;
     inFlight := inFlight s |}.

Definition validTypes : list string := ["image/png"; "image/jpeg"; "image/jpg"].

Definition handleFile (f : File) (s : State) : State :=
  if negb (bool_decide (type f ∈ validTypes))
  then toast {| title := "Invalid file type";
                description := "Please upload a PNG or JPG image.";
                destructive := true |} s
  else if 10 * 1024 * 1024 <? size f
  then toast {| title := "File too large";
                description := "Please upload an image under 10MB.";
                destructive := true |} s
  else {| file := Some f; preview := preview s; convertState := idle;
          dragOver := dragOver s; icoUrl := None; icnsUrl := None;
          toasts := toasts s; downloads := downloads s;
          inFlight := inFlight s |}.

(** [reader.onload]: the data URL of the file read by [handleFile]. *)
Definition previewLoaded (dataUrl : string) (s : State) : State :=
  {| file := file s; preview := Some dataUrl; convertState := convertState s;
     dragOver := dragOver s; icoUrl := icoUrl s; icnsUrl := icnsUrl s;
     toasts := toasts s; downloads := downloads s; inFlight := inFlight s |}.

Definition setDragOver (v : bool) (s : State) : State :=
  {| file := file s; preview := preview s; convertState := convertState s;
     dragOver := v; icoUrl := icoUrl s; icnsUrl := icnsUrl s;
     toasts := toasts s; downloads := downloads s; inFlight := inFlight s |}.

(** [e.dataTransfer.files] is the list dropped. *)
Definition handleDrop (dropped : list File) (s : State) : State :=
  let s := setDragOver false s in
  match dropped with
  | droppedFile :: _ => handleFile droppedFile s
  | [] => s
  end.

(** The [onChange] of the file input. *)
Definition inputChange (chosen : list File) (s : State) : State :=
  match chosen with
  | f :: _ => handleFile f s
  | [] => s
  end.

(** How the [fetch] of [handleConvert] settles: a response with [res.ok]
    whose body is the JSON object of the conversion handler, a response
    that is not ok with its body text, or an exception of [fetch] or of
    [res.json()]. *)
Inductive FetchOutcome : Type :=
| ResponseOk (icoUrl icnsUrl : string)
| ResponseNotOk (text : string)
| FetchThrows (message : string).

(** [handleConvert] up to its [await fetch(...)]. *)
Definition handleConvert_start (s : State) : State :=
  match file s with
  | None => s
  | Some _ =>
      {| file := file s; preview := preview s; convertState := converting;
         dragOver := dragOver s; icoUrl := icoUrl s; icnsUrl := icnsUrl s;
         toasts := toasts s; downloads := downloads s;
         inFlight := S (inFlight s) |}
  end.

Definition or_default (s fallback : string) : string :=
  if String.eqb s "" then fallback else s.

Definition conversion_failed (message : string) (s : State) : State :=
  toast {| title := "Conversion failed";
           description :=
             or_default message "Something went wrong. Please try again.";
           destructive := true |}
    {| file := file s; preview := preview s; convertState := error;
       dragOver := dragOver s; icoUrl := icoUrl s; icnsUrl := icnsUrl s;
       toasts := toasts s; downloads := downloads s;
       inFlight := inFlight s |}.

(** [handleConvert] from the moment its [fetch] settles.  Nothing settles
    when no [fetch] is in flight. *)
Definition handleConvert_settle (outcome : FetchOutcome) (s : State) : State :=
  match inFlight s with
  | O => s
  | S n =>
      let s := {| file := file s; preview := preview s;
                  convertState := convertState s; dragOver := dragOver s;
                  icoUrl := icoUrl s; icnsUrl := icnsUrl s;
                  toasts := toasts s; downloads := downloads s;
                  inFlight := n |} in
      match outcome with
      | ResponseOk ico icns =>
          toast {| title := "Conversion complete";
                   description := "Your icon files are ready to download.";
                   destructive := false |}
            {| file := file s; preview := preview s; convertState := done;
               dragOver := dragOver s; icoUrl := Some ico;
               icnsUrl := Some icns; toasts := toasts s;
               downloads := downloads s; inFlight := inFlight s |}
      | ResponseNotOk text =>
          conversion_failed (or_default text "Conversion failed") s
      | FetchThrows message => conversion_failed message s
      end
  end.

Definition handleReset (s : State) : State :=
  {| file := None; preview := None; convertState := idle;
     dragOver := dragOver s; icoUrl := None; icnsUrl := None;
     toasts := toasts s; downloads := downloads s; inFlight := inFlight s |}.

Definition handleDownload (url filename : string) (s : State) : State :=
  {| file := file s; preview := preview s; convertState := convertState s;
     dragOver := dragOver s; icoUrl := icoUrl s; icnsUrl := icnsUrl s;
     toasts := toasts s; downloads := downloads s ++ [(url, filename)];
     inFlight := inFlight s |}.

(** [file.name.replace(/\.\w+$/, extension)] *)
Definition download_name (f : File) (extension : string) : string :=
  String_replace_to_end extension_re extension (name f).

(** The [onClick] of a download button: [url && handleDownload(url,
    file.name.replace(...))], an empty string counting as no address. *)
Definition clickDownload (kind : Kind) (s : State) : State :=
  match file s with
  | None => s
  | Some f =>
      match (match kind with Ico => icoUrl s | Icns => icnsUrl s end) with
      | Some url =>
          if String.eqb url "" then s
          else handleDownload url
                 (download_name f
                    (match kind with Ico => ".ico" | Icns => ".icns" end)) s
      | None => s
      end
  end.

(** The label of the type badge: [file.type.split("/")[1]], on which
    [toUpperCase] is then called. *)
Definition type_label (f : File) : option string :=
  String_split "/" (type f) !! 1%nat.

(** What can happen to the page. *)
Inductive Event : Type :=
| InputChange (chosen : list File)
| Drop (dropped : list File)
| DragOver
| DragLeave
| PreviewLoaded (dataUrl : string)
| ClickConvert
| Settle (outcome : FetchOutcome)
| ClickReset
| ClickDownload (kind : Kind).

(** Which controls the component renders: the drop zone with its file input
    while no file is selected; otherwise the remove button, and with it the
    convert button in the states [idle] and [error], or the download
    buttons and "Convert another image" in the state [done].  A read or a
    [fetch] settles whatever is rendered. *)
Definition rendered (e : Event) (s : State) : bool :=
  match e, file s with
  | (InputChange _ | Drop _ | DragOver | DragLeave), None => true
  | (InputChange _ | Drop _ | DragOver | DragLeave), Some _ => false
  | ClickConvert, Some _ =>
      match convertState s with idle | error => true | _ => false end
  | ClickReset, Some _ => true
  | ClickDownload _, Some _ =>
      match convertState s with done => true | _ => false end
  | (ClickConvert | ClickReset | ClickDownload _), None => false
  | (PreviewLoaded _ | Settle _), _ => true
  end.

Definition handle (e : Event) (s : State) : State :=
  if rendered e s
  then
    match e with
    | InputChange chosen => inputChange chosen s
    | Drop dropped => handleDrop dropped s
    | DragOver => setDragOver true s
    | DragLeave => setDragOver false s
    | PreviewLoaded dataUrl => previewLoaded dataUrl s
    | ClickConvert => handleConvert_start s
    | Settle outcome => handleConvert_settle outcome s
    | ClickReset => handleReset s
    | ClickDownload kind => clickDownload kind s
    end
  else s.

(** The state after a sequence of events, oldest first. *)
Definition run (events : list Event) (s : State) : State :=
  fold_left (fun s e => handle e s) events s.

End Home.

(** ** Part II: the proofs *)

(** *** Runs of the model *)

Example buildIcns_empty_run :
  buildIcns [] = Ok [x69; x63; x6e; x73; x00; x00; x00; x08].
Proof. reflexivity. Qed.

Example buildIcns_small_run :
  buildIcns [ {| osType := "icp4"; data := [x01; x02] |};
              {| osType := "ic07"; data := [xff] |} ]
  = Ok ([x69; x63; x6e; x73; x00; x00; x00; x1b]
        ++ [x69; x63; x70; x34; x00; x00; x00; x0a; x01; x02]
        ++ [x69; x63; x30; x37; x00; x00; x00; x09; xff]).
Proof. vm_compute. reflexivity. Qed.

Example filename_re_accepts :
  RegExp_test filename_re "lq3x9k2a7f0b1c.ico" = true
  ∧ RegExp_test filename_re "lq3x9k2a7f0b1c.icns" = true.
Proof. split; reflexivity. Qed.

Example filename_re_rejects :
  RegExp_test filename_re "../etc/passwd.ico" = false
  ∧ RegExp_test filename_re "ABC123.exe" = false
  ∧ RegExp_test filename_re ".ico" = false
  ∧ RegExp_test filename_re "abc.ico.icns" = false
  ∧ RegExp_test filename_re "abc.icnsx" = false.
Proof. repeat split; reflexivity. Qed.

Example Number_toString36_runs :
  Number_toString36 0 = "0" ∧ Number_toString36 35 = "z"
  ∧ Number_toString36 36 = "10" ∧ Number_toString36 1771459200000 = "mlsp2io0"
  ∧ Number_toString36 (-37) = "-11".
Proof. repeat split; vm_compute; reflexivity. Qed.

Example path_extname_runs :
  path_extname "abc.ico" = ".ico" ∧ path_extname "abc.icns" = ".icns"
  ∧ path_extname "abc" = "" ∧ path_extname ".ico" = ""
  ∧ path_extname "a.b.c" = ".c".
Proof. repeat split; reflexivity. Qed.

(** *** Bytes and buffers *)

Lemma Z_of_byte_of_Z (z : Z) : Z_of_byte (byte_of_Z z) = z mod 256.
Proof.
  unfold Z_of_byte, byte_of_Z.
  assert (Hr : 0 <= z mod 256 < 256) by (apply Z.mod_pos_bound; lia).
  destruct (Byte.of_N (Z.to_N (z mod 256))) as [x|] eqn:E; simpl.
  - apply Byte.to_of_N in E. rewrite E. lia.
  - apply Byte.of_N_None_iff in E. lia.
Qed.

Lemma Z_of_byte_range (x : byte) : 0 <= Z_of_byte x < 256.
Proof.
  unfold Z_of_byte. pose proof (Byte.to_N_bounded x). lia.
Qed.

Lemma uint32BE_length (v : Z) : List.length (Buffer.uint32BE v) = 4%nat.
Proof. reflexivity. Qed.

(** Reading the four bytes back gives the value: the encoding is big-endian
    and loses nothing below 2^32. *)
Lemma be_value_uint32BE (v : Z) :
  0 <= v <= 4294967295 → be_value (Buffer.uint32BE v) = v.
Proof.
  intros Hv. unfold be_value, Buffer.uint32BE. simpl.
  rewrite !Z_of_byte_of_Z, !Z.shiftr_div_pow2 by lia.
  change (2 ^ 24) with 16777216. change (2 ^ 16) with 65536.
  change (2 ^ 8) with 256.
  pose proof (Z.div_mod v 256 ltac:(lia)) as H0.
  pose proof (Z.div_mod (v / 256) 256 ltac:(lia)) as H1.
  pose proof (Z.div_mod (v / 256 / 256) 256 ltac:(lia)) as H2.
  rewrite !Z.div_div in H1, H2 by lia.
  change (256 * 256) with 65536 in H1, H2.
  rewrite Z.div_div in H2 by lia.
  change (65536 * 256) with 16777216 in H2.
  assert (Hs : v / 16777216 < 256) by (apply Z.div_lt_upper_bound; lia).
  assert (Hp : 0 <= v / 16777216) by (apply Z.div_pos; lia).
  rewrite (Z.mod_small (v / 16777216)) by lia.
  lia.
Qed.

(** Settle the comparisons of a goal whose outcome the context decides. *)
Ltac Zcmp :=
  repeat match goal with
         | |- context [?x <? ?y] => destruct (Z.ltb_spec x y); try lia
         | |- context [?x <=? ?y] => destruct (Z.leb_spec x y); try lia
         end.

Lemma buffer_length_app (l k : list byte) :
  Buffer.length (l ++ k) = Buffer.length l + Buffer.length k.
Proof. unfold Buffer.length. rewrite length_app. lia. Qed.

Lemma buffer_length_nonneg (l : list byte) : 0 <= Buffer.length l.
Proof. unfold Buffer.length. lia. Qed.

(** Writing into the zero-filled tail of a buffer. *)
Lemma set_bytes_zeros (pre src : list byte) (k off : nat) :
  off = List.length pre → (List.length src ≤ k)%nat →
  Buffer.set_bytes (pre ++ replicate k x00) off src
  = pre ++ src ++ replicate (k - List.length src) x00.
Proof.
  intros -> Hk. unfold Buffer.set_bytes.
  rewrite take_app_length, drop_app_add, drop_replicate.
  rewrite length_app, length_replicate.
  rewrite take_ge by lia. reflexivity.
Qed.

Lemma set_bytes_length (buf src : list byte) (off : nat) :
  List.length (Buffer.set_bytes buf off src) = List.length buf.
Proof.
  unfold Buffer.set_bytes.
  rewrite !length_app, !length_take, length_drop. lia.
Qed.

Lemma tag_field_length (tag : string) : List.length (tag_field tag) = 4%nat.
Proof.
  unfold tag_field. cbv zeta.
  rewrite length_app, length_replicate, length_take. lia.
Qed.

Lemma ascii_bytes_length (s : string) :
  List.length (ascii_bytes s) = String.length s.
Proof.
  unfold ascii_bytes. rewrite length_fmap.
  induction s as [|c s IH]; simpl; congruence.
Qed.

(** A tag of four characters fills its field exactly. *)
Lemma tag_field_exact (tag : string) :
  String.length tag = 4%nat → tag_field tag = ascii_bytes tag.
Proof.
  intros H4. unfold tag_field. cbv zeta.
  rewrite take_ge by (rewrite ascii_bytes_length; lia).
  rewrite ascii_bytes_length, H4. simpl. apply app_nil_r.
Qed.

Lemma write_zeros (pre : list byte) (k : nat) (tag : string) (offset : Z) :
  offset = Z.of_nat (List.length pre) → (4 ≤ k)%nat →
  Buffer.write (pre ++ replicate k x00) tag offset 4
  = Ok (pre ++ tag_field tag ++ replicate (k - 4) x00).
Proof.
  intros -> Hk. unfold Buffer.write, Buffer.length.
  rewrite length_app, length_replicate. cbv zeta. Zcmp.
  simpl orb. cbv iota.
  rewrite Nat2Z.id. change (Z.to_nat 4) with 4%nat.
  rewrite fmap_take. fold (ascii_bytes tag).
  assert (Hn : (List.length (take 4 (ascii_bytes tag)) ≤ 4)%nat)
    by (rewrite length_take; lia).
  rewrite set_bytes_zeros by (reflexivity || lia).
  unfold tag_field. cbv zeta. rewrite <- !app_assoc.
  rewrite <- replicate_add.
  set (n := List.length (take 4 (ascii_bytes tag))) in *.
  replace (4 - n + (k - 4))%nat with (k - n)%nat by lia. reflexivity.
Qed.

Lemma writeUInt32BE_zeros (pre : list byte) (k : nat) (value offset : Z) :
  offset = Z.of_nat (List.length pre) → (4 ≤ k)%nat →
  0 <= value <= 4294967295 →
  Buffer.writeUInt32BE (pre ++ replicate k x00) value offset
  = Ok (pre ++ Buffer.uint32BE value ++ replicate (k - 4) x00).
Proof.
  intros -> Hk Hv. unfold Buffer.writeUInt32BE, Buffer.length.
  rewrite length_app, length_replicate. Zcmp.
  simpl orb. cbv iota.
  rewrite Nat2Z.id, set_bytes_zeros by (reflexivity || (rewrite uint32BE_length; lia)).
  rewrite uint32BE_length. reflexivity.
Qed.

Lemma writeUInt32BE_too_large (buf : list byte) (value offset : Z) :
  4294967295 < value →
  Buffer.writeUInt32BE buf value offset = Throw (ERR_OUT_OF_RANGE "value").
Proof.
  intros Hv. unfold Buffer.writeUInt32BE. Zcmp; reflexivity.
Qed.

Lemma copy_zeros (pre src : list byte) (k : nat) (targetStart : Z) :
  targetStart = Z.of_nat (List.length pre) → (List.length src ≤ k)%nat →
  Buffer.copy src (pre ++ replicate k x00) targetStart
  = Ok (pre ++ src ++ replicate (k - List.length src) x00).
Proof.
  intros -> Hk. unfold Buffer.copy. Zcmp.
  rewrite Nat2Z.id, set_bytes_zeros by (reflexivity || lia). reflexivity.
Qed.

(** *** The encoder *)

Lemma buildIcns_measure_total (entries : list IcnsEntry) (acc : Z) :
  buildIcns_measure entries acc = acc + (icns_total_length entries - 8).
Proof.
  revert acc. induction entries as [|e rest IH]; intros acc; simpl.
  - lia.
  - rewrite IH. lia.
Qed.

Lemma icns_total_length_min (entries : list IcnsEntry) :
  8 <= icns_total_length entries.
Proof.
  induction entries as [|e rest IH]; simpl.
  - lia.
  - pose proof (buffer_length_nonneg (data e)). lia.
Qed.

(** The invariant of the second loop: the buffer is what has been laid out
    so far followed by zeros, and [offset] is where the zeros start. *)
Lemma buildIcns_fill_zeros (entries : list IcnsEntry) :
  ∀ (pre : list byte) (k : nat) (offset : Z),
    offset = Z.of_nat (List.length pre) →
    Z.of_nat k = icns_total_length entries - 8 →
    icns_total_length entries <= 4294967295 →
    buildIcns_fill entries (pre ++ replicate k x00) offset
    = Ok (pre ++ concat (icns_entry_bytes <$> entries)).
Proof.
  induction entries as [|e rest IH]; intros pre k offset Hoff Hk Hmax.
  - simpl in *. replace k with 0%nat by lia. reflexivity.
  - simpl in Hk, Hmax.
    pose proof (icns_total_length_min rest) as Hmin.
    pose proof (buffer_length_nonneg (data e)) as Hd.
    unfold Buffer.length in Hk, Hmax, Hd.
    cbn [buildIcns_fill].
    rewrite write_zeros by (assumption || lia).
    cbn [mbind result_bind].
    rewrite (app_assoc pre).
    rewrite writeUInt32BE_zeros;
      [ | rewrite length_app, tag_field_length; lia | lia
        | unfold Buffer.length; lia ].
    cbn [mbind result_bind].
    rewrite <- app_assoc, (app_assoc (tag_field _)), (app_assoc pre).
    rewrite copy_zeros;
      [ | rewrite !length_app, tag_field_length, uint32BE_length; lia | lia ].
    cbn [mbind result_bind].
    rewrite (app_assoc _ (data e)).
    rewrite IH;
      [ | rewrite !length_app, tag_field_length, uint32BE_length;
          unfold Buffer.length; lia
        | lia | lia ].
    rewrite fmap_cons. cbn [concat]. unfold icns_entry_bytes at 2.
    rewrite <- !app_assoc. reflexivity.
Qed.

(** The encoder, case by case: it throws exactly when the total length does
    not fit the 32-bit field, and otherwise returns the header followed by
    the entries in order. *)
Lemma buildIcns_run (entries : list IcnsEntry) :
  buildIcns entries =
    if icns_total_length entries <=? 4294967295
    then Ok (ascii_bytes "icns" ++ Buffer.uint32BE (icns_total_length entries)
             ++ concat (icns_entry_bytes <$> entries))
    else Throw (ERR_OUT_OF_RANGE "value").
Proof.
  unfold buildIcns. cbv zeta.
  rewrite buildIcns_measure_total.
  replace (8 + (icns_total_length entries - 8))
    with (icns_total_length entries) by lia.
  pose proof (icns_total_length_min entries) as Hmin.
  unfold Buffer.alloc.
  set (n := Z.to_nat (icns_total_length entries)).
  assert (Hn : Z.of_nat n = icns_total_length entries) by (subst n; lia).
  rewrite <- (app_nil_l (replicate n x00)).
  rewrite write_zeros by (reflexivity || lia).
  cbn [mbind result_bind].
  change (tag_field "icns") with (ascii_bytes "icns").
  rewrite app_nil_l.
  destruct (Z.leb_spec (icns_total_length entries) 4294967295) as [Hle|Hgt].
  - rewrite writeUInt32BE_zeros by (reflexivity || lia).
    cbn [mbind result_bind].
    rewrite app_assoc.
    rewrite buildIcns_fill_zeros; [ | reflexivity | lia | lia ].
    rewrite <- app_assoc. reflexivity.
  - rewrite writeUInt32BE_too_large by lia. reflexivity.
Qed.

Lemma readUInt32BE_header (magic rest : list byte) (v : Z) :
  List.length magic = 4%nat → 0 <= v <= 4294967295 →
  Buffer.readUInt32BE (magic ++ Buffer.uint32BE v ++ rest) 4 = Ok v.
Proof.
  intros Hm Hv. unfold Buffer.readUInt32BE, Buffer.length.
  rewrite !length_app, uint32BE_length, Hm. Zcmp. simpl orb. cbv iota.
  change (Z.to_nat 4) with 4%nat.
  rewrite drop_app_length' by (symmetry; exact Hm).
  rewrite take_app_length' by reflexivity.
  pose proof (be_value_uint32BE v Hv) as Hbe.
  unfold be_value, Buffer.uint32BE in *. simpl in *.
  f_equal. rewrite <- Hbe at 5. lia.
Qed.

Lemma buildIcns_length (entries : list IcnsEntry) :
  Buffer.length (ascii_bytes "icns"
                 ++ Buffer.uint32BE (icns_total_length entries)
                 ++ concat (icns_entry_bytes <$> entries))
  = icns_total_length entries.
Proof.
  rewrite !buffer_length_app.
  change (Buffer.length (ascii_bytes "icns")) with 4.
  change (Buffer.length (Buffer.uint32BE (icns_total_length entries))) with 4.
  induction entries as [|e rest IH].
  - reflexivity.
  - rewrite fmap_cons. cbn [concat icns_total_length].
    rewrite buffer_length_app. unfold icns_entry_bytes at 1.
    rewrite !buffer_length_app.
    replace (Buffer.length (tag_field (osType e))) with 4
      by (unfold Buffer.length; rewrite tag_field_length; reflexivity).
    replace (Buffer.length (Buffer.uint32BE (Buffer.length (data e) + 8)))
      with 4 by reflexivity.
    lia.
Qed.

Lemma buildIcns_Ok_bound (entries : list IcnsEntry) (buf : list byte) :
  buildIcns entries = Ok buf →
  icns_total_length entries <= 4294967295
  ∧ buf = ascii_bytes "icns" ++ Buffer.uint32BE (icns_total_length entries)
          ++ concat (icns_entry_bytes <$> entries).
Proof.
  rewrite buildIcns_run.
  destruct (Z.leb_spec (icns_total_length entries) 4294967295); [|discriminate].
  intros [= <-]. split; [assumption | reflexivity].
Qed.

Lemma icns_entry_bytes_layout (entries : list IcnsEntry) :
  Forall (fun e => String.length (osType e) = 4%nat) entries →
  icns_entry_bytes <$> entries = icns_entry_layout <$> entries.
Proof.
  induction 1 as [|e rest He _ IH]; [reflexivity|].
  rewrite !fmap_cons, IH. f_equal.
  unfold icns_entry_bytes, icns_entry_layout.
  rewrite tag_field_exact by assumption.
  rewrite (Z.add_comm 8). reflexivity.
Qed.

Lemma icns_entry_length_bound (entries : list IcnsEntry) :
  Forall (fun e => 8 + Buffer.length (data e) <= icns_total_length entries)
         entries.
Proof.
  induction entries as [|e rest IH]; constructor.
  - simpl. pose proof (icns_total_length_min rest). lia.
  - eapply Forall_impl; [exact IH|]. simpl. intros x Hx.
    pose proof (buffer_length_nonneg (data e)). lia.
Qed.

(** [C1] Whenever [buildIcns] is given a non-empty list of entries, it
    returns a buffer exactly when the total length 8 + Σ (8 + payload
    length) fits the unsigned 32-bit field; every buffer it returns starts
    with the four ASCII bytes of "icns", holds at bytes 4-7 the big-endian
    value of its own byte length, and that length is 8 + Σ (8 + payload
    length).  (The same holds for the empty list.) *)
Theorem C1_buildIcns_header_and_total_length (entries : list IcnsEntry) :
  entries ≠ [] →
  (is_Ok (buildIcns entries) = true ↔ icns_total_length entries <= 4294967295)
  ∧ ∀ buf : list byte,
      buildIcns entries = Ok buf →
      take 4 buf = ascii_bytes "icns"
      ∧ Buffer.readUInt32BE buf 4 = Ok (Buffer.length buf)
      ∧ Buffer.length buf = icns_total_length entries.
Proof.
  intros _. split.
  - rewrite buildIcns_run.
    destruct (Z.leb_spec (icns_total_length entries) 4294967295); simpl;
      split; (done || lia).
  - intros buf Hbuf. apply buildIcns_Ok_bound in Hbuf as [Hmax ->].
    pose proof (icns_total_length_min entries) as Hmin.
    rewrite buildIcns_length. repeat split.
    apply readUInt32BE_header; [reflexivity | lia].
Qed.

Lemma C1_witness :
  let entries := [ {| osType := "icp4"; data := [x89; x50; x4e] |};
                   {| osType := "icp5"; data := [x47] |} ] in
  ∃ buf : list byte,
    buildIcns entries = Ok buf
    ∧ take 4 buf = ascii_bytes "icns"
    ∧ Buffer.readUInt32BE buf 4 = Ok (Buffer.length buf)
    ∧ Buffer.length buf = 8 + ((8 + 3) + (8 + 1)).
Proof.
  intros entries.
  assert (Hne : entries ≠ []) by discriminate.
  destruct (C1_buildIcns_header_and_total_length entries Hne) as [_ Hall].
  exists ([x69; x63; x6e; x73; x00; x00; x00; x1c]
          ++ [x69; x63; x70; x34; x00; x00; x00; x0b; x89; x50; x4e]
          ++ [x69; x63; x70; x35; x00; x00; x00; x09; x47]).
  split; [reflexivity | apply Hall; reflexivity].
Defined.

(** [C3] is not what the code does: [buildIcns] validates nothing, so the
    empty entry set and a tag outside the table both produce a buffer. *)
Lemma C3_counterexample :
  ¬ (∀ entries : list IcnsEntry,
       entries = [] ∨ Exists (fun e => known_tag (osType e) = false) entries →
       ∃ err : exn, buildIcns entries = Throw err).
Proof.
  intros Hclaim.
  destruct (Hclaim [] (or_introl eq_refl)) as [err Herr].
  discriminate Herr.
Qed.

Example buildIcns_unknown_tag_run :
  known_tag "XXXX" = false
  ∧ buildIcns [ {| osType := "XXXX"; data := [x01] |} ]
    = Ok [x69; x63; x6e; x73; x00; x00; x00; x11;
          x58; x58; x58; x58; x00; x00; x00; x09; x01].
Proof. split; reflexivity. Qed.

(** [C3], amended.  [buildIcns] does not validate its entries: the empty
    entry set gives the 8-byte container "icns" with total length 8, and
    entries are encoded whatever their tags are (the first four characters
    of the tag are written, zero bytes fill a shorter tag).  The only
    failure is the [RangeError] of [writeUInt32BE] when the total length
    exceeds 4294967295, and then no buffer is produced. *)
Theorem C3_buildIcns_validates_nothing (entries : list IcnsEntry) :
  buildIcns [] = Ok (ascii_bytes "icns" ++ Buffer.uint32BE 8)
  ∧ (icns_total_length entries <= 4294967295 →
     buildIcns entries
     = Ok (ascii_bytes "icns" ++ Buffer.uint32BE (icns_total_length entries)
           ++ concat (icns_entry_bytes <$> entries)))
  ∧ (4294967295 < icns_total_length entries →
     buildIcns entries = Throw (ERR_OUT_OF_RANGE "value")).
Proof.
  split; [reflexivity|]. rewrite buildIcns_run.
  destruct (Z.leb_spec (icns_total_length entries) 4294967295);
    split; intros; (reflexivity || lia).
Qed.

Lemma C3_witness :
  buildIcns [ {| osType := "zz"; data := [x01] |} ]
  = Ok [x69; x63; x6e; x73; x00; x00; x00; x11;
        x7a; x7a; x00; x00; x00; x00; x00; x09; x01].
Proof.
  destruct (C3_buildIcns_validates_nothing
              [ {| osType := "zz"; data := [x01] |} ]) as (_ & Hruns & _).
  etransitivity; [apply Hruns; vm_compute; discriminate | reflexivity].
Defined.

(** *** Worlds and promises *)

Lemma add_calls_nil (w : World) : add_calls [] w = w.
Proof. destruct w. unfold add_calls. simpl. rewrite app_nil_r. reflexivity. Qed.

Lemma add_calls_log (c : Call) (cs : list Call) (w : World) :
  add_calls cs (log c w) = add_calls (c :: cs) w.
Proof.
  unfold add_calls, log. simpl. rewrite <- app_assoc. reflexivity.
Qed.

Lemma add_calls_add_calls (cs1 cs2 : list Call) (w : World) :
  add_calls cs2 (add_calls cs1 w) = add_calls (cs1 ++ cs2) w.
Proof.
  unfold add_calls. simpl. rewrite <- app_assoc. reflexivity.
Qed.

Section ServerProofs.

Variable sharp : ResizeRequest → result (list byte).
Variable pngToIco : list (list byte) → result (list byte).

(** The seven pipelines of the ICO table all run; the array of their
    outcomes is awaited. *)
Lemma Promise_all_resize (img : list byte) (sizes : list Z) (w : World) :
  Promise_all ((fun size => resize_png sharp img size) <$> sizes) w
  = (all_results (sharp <$> (resize_request img <$> sizes)),
     add_calls (CallSharp <$> (resize_request img <$> sizes)) w).
Proof.
  revert w. induction sizes as [|size rest IH]; intros w.
  - simpl. rewrite add_calls_nil. reflexivity.
  - rewrite !fmap_cons. cbn [Promise_all].
    unfold resize_png at 1, call. fold (resize_request img size).
    rewrite IH, add_calls_log. reflexivity.
Qed.

(** The same for the rows of the ICNS table, each outcome paired with the
    tag of its row. *)
Lemma Promise_all_entries (img : list byte) (rows : list (Z * string))
    (w : World) :
  Promise_all
    ((fun '(size, osType) =>
        data ← resize_png sharp img size;
        mret {| osType := osType; data := data |}) <$> rows) w
  = (all_results (entry_result sharp img <$> rows),
     add_calls (CallSharp <$> (resize_request img <$> rows.*1)) w).
Proof.
  revert w. induction rows as [|[size tag] rest IH]; intros w.
  - simpl. rewrite add_calls_nil. reflexivity.
  - rewrite !fmap_cons. cbn [Promise_all].
    unfold resize_png at 1, call. fold (resize_request img size).
    rewrite <- add_calls_log.
    cbn [all_results fst snd].
    change (entry_result sharp img (size, tag))
      with (d ← sharp (resize_request img size);
            Ok {| osType := tag; data := d |}).
    cbv beta iota delta [mbind Action_bind mret Action_ret result_bind] in IH |- *.
    destruct (sharp (resize_request img size)) as [d|e];
      rewrite IH; reflexivity.
Qed.

(** The conversion handler, path by path.  The four ways to fail are a
    rejected ICO resize, a failing ICO encoder, a rejected ICNS resize and
    a throwing ICNS encoder; each is caught and answered with status
    500. *)
Lemma convert_run (now : Z) (rnd : RandomDraw) (img : list byte) (w : World) :
  convert sharp pngToIco now rnd (Some img) w =
    let id := conversion_id now rnd in
    let calls1 := CallSharp <$> ico_requests img in
    match all_results (sharp <$> ico_requests img) with
    | Throw e => (Ok (ErrorStatus 500 e), add_calls calls1 w)
    | Ok pngs =>
        match pngToIco pngs with
        | Throw e =>
            (Ok (ErrorStatus 500 e), add_calls (calls1 ++ [CallPngToIco pngs]) w)
        | Ok ico =>
            let files2 := <[id +:+ ".ico" := ico]> (files w) in
            let calls2 :=
              calls1 ++ [CallPngToIco pngs; CallWriteFileSync (id +:+ ".ico") ico]
                ++ (CallSharp <$> icns_requests img) in
            match all_results (entry_result sharp img <$> ICNS_SIZES) with
            | Throw e =>
                (Ok (ErrorStatus 500 e),
                 {| files := files2; timers := timers w;
                    calls := calls w ++ calls2 |})
            | Ok entries =>
                match buildIcns entries with
                | Throw e =>
                    (Ok (ErrorStatus 500 e),
                     {| files := files2; timers := timers w;
                        calls := calls w ++ calls2 ++ [CallBuildIcns entries] |})
                | Ok icns =>
                    (Ok (Json ("/api/download/" +:+ id +:+ ".ico")
                              ("/api/download/" +:+ id +:+ ".icns")),
                     {| files := <[id +:+ ".icns" := icns]> files2;
                        timers :=
                          timers w
                          ++ [ {| delay := 300000;
                                  timer_icoPath := id +:+ ".ico";
                                  timer_icnsPath := id +:+ ".icns" |} ];
                        calls :=
                          calls w ++ calls2
                          ++ [ CallBuildIcns entries;
                               CallWriteFileSync (id +:+ ".icns") icns;
                               CallSetTimeout 300000 ] |})
                end
            end
        end
    end.
Proof.
  pose proof (Promise_all_entries img ICNS_SIZES) as Hentries.
  unfold convert, try_catch. fold (conversion_id now rnd).
  cbv beta iota delta [mbind Action_bind mret Action_ret] in Hentries |- *.
  rewrite Promise_all_resize. fold (ico_requests img).
  destruct (all_results (sharp <$> ico_requests img)) as [pngs|e];
    [|reflexivity].
  unfold call at 1.
  destruct (pngToIco pngs) as [ico|e].
  2: { cbv zeta. unfold add_calls, log. cbn [files timers calls].
       rewrite <- !app_assoc. reflexivity. }
  unfold fs.writeFileSync at 1.
  rewrite Hentries. fold (icns_requests img).
  destruct (all_results (entry_result sharp img <$> ICNS_SIZES))
    as [entries|e].
  2: { cbv zeta. unfold add_calls, log. cbn [files timers calls].
       rewrite <- !app_assoc. reflexivity. }
  unfold call at 1.
  destruct (buildIcns entries) as [icns|e].
  2: { cbv zeta. unfold add_calls, log. cbn [files timers calls].
       rewrite <- !app_assoc. reflexivity. }
  cbv zeta. unfold fs.writeFileSync, setTimeout, add_calls, log.
  cbn [files timers calls]. rewrite <- !app_assoc. reflexivity.
Qed.

End ServerProofs.

(** *** The matcher decides the language *)

Lemma lang_Seq_inv (r1 r2 : regex) (w : list ascii) :
  lang (Seq r1 r2) w → ∃ w1 w2, w = w1 ++ w2 ∧ lang r1 w1 ∧ lang r2 w2.
Proof. inversion 1; subst; eauto. Qed.

Lemma lang_Alt_inv (r1 r2 : regex) (w : list ascii) :
  lang (Alt r1 r2) w → lang r1 w ∨ lang r2 w.
Proof. inversion 1; subst; auto. Qed.

Lemma lang_Class_inv (p : ascii → bool) (w : list ascii) :
  lang (Class p) w → ∃ c, w = [c] ∧ p c = true.
Proof. inversion 1; subst; eauto. Qed.

Lemma lang_Empty_inv (w : list ascii) : lang Empty w → w = [].
Proof. inversion 1; reflexivity. Qed.

Lemma lang_Never_inv (w : list ascii) : ¬ lang Never w.
Proof. inversion 1. Qed.

Lemma nullable_lang (r : regex) : nullable r = true ↔ lang r [].
Proof.
  induction r as [| |p|r1 IH1 r2 IH2|r1 IH1 r2 IH2|r1 IH1]; simpl.
  - split; [discriminate | intros H; destruct (lang_Never_inv _ H)].
  - split; [constructor | reflexivity].
  - split; [discriminate|].
    intros H. apply lang_Class_inv in H as (c & Hc & _). discriminate Hc.
  - rewrite andb_true_iff, IH1, IH2. split.
    + intros [H1 H2]. apply (lang_Seq _ _ [] [] H1 H2).
    + intros H. apply lang_Seq_inv in H as (w1 & w2 & Hw & H1 & H2).
      symmetry in Hw. apply app_eq_nil in Hw as [-> ->]. split; assumption.
  - rewrite orb_true_iff, IH1, IH2. split.
    + intros [H|H]; [apply lang_Alt_l | apply lang_Alt_r]; assumption.
    + apply lang_Alt_inv.
  - split; [constructor | reflexivity].
Qed.

Lemma lang_Star_uncons (r : regex) (c : ascii) (w : list ascii) :
  lang (Star r) (c :: w) →
  ∃ w1 w2, w = w1 ++ w2 ∧ lang r (c :: w1) ∧ lang (Star r) w2.
Proof.
  intros H. remember (Star r) as s eqn:Es. remember (c :: w) as cw eqn:Ew.
  induction H as [| | | | | |r1 w1 w2 H1 _ H2 IH2]; try discriminate.
  injection Es as ->. destruct w1 as [|c1 w1].
  - simpl in Ew. apply IH2; [reflexivity | assumption].
  - simpl in Ew. injection Ew as -> <-. eauto.
Qed.

Lemma deriv_lang (r : regex) : ∀ c w, lang (deriv c r) w ↔ lang r (c :: w).
Proof.
  induction r as [| |p|r1 IH1 r2 IH2|r1 IH1 r2 IH2|r1 IH1]; intros c w; simpl.
  - split; intros H; destruct (lang_Never_inv _ H).
  - split; intros H; [destruct (lang_Never_inv _ H)|].
    apply lang_Empty_inv in H. discriminate H.
  - destruct (p c) eqn:Ep; split; intros H.
    + apply lang_Empty_inv in H as ->. constructor. assumption.
    + apply lang_Class_inv in H as (c' & [= -> ->] & _). constructor.
    + destruct (lang_Never_inv _ H).
    + apply lang_Class_inv in H as (c' & [= -> ->] & Hp). congruence.
  - assert (Hl : lang (Seq (deriv c r1) r2) w → lang (Seq r1 r2) (c :: w)).
    { intros H. apply lang_Seq_inv in H as (w1 & w2 & -> & H1 & H2).
      apply IH1 in H1. apply (lang_Seq _ _ (c :: w1) w2 H1 H2). }
    assert (Hr : lang (Seq r1 r2) (c :: w) →
                 lang (Seq (deriv c r1) r2) w
                 ∨ (lang r1 [] ∧ lang (deriv c r2) w)).
    { intros H. apply lang_Seq_inv in H as (w1 & w2 & Hw & H1 & H2).
      destruct w1 as [|c1 w1]; simpl in Hw.
      - right. subst w2. split; [assumption | apply IH2; assumption].
      - injection Hw as -> ->. left.
        apply lang_Seq; [apply IH1; assumption | assumption]. }
    destruct (nullable r1) eqn:En; split.
    + intros H. apply lang_Alt_inv in H as [H|H]; [auto|].
      apply (lang_Seq _ _ [] (c :: w)); [apply nullable_lang; assumption|].
      apply IH2. assumption.
    + intros H. destruct (Hr H) as [H'|[_ H']];
        [apply lang_Alt_l | apply lang_Alt_r]; assumption.
    + exact Hl.
    + intros H. destruct (Hr H) as [H'|[H' _]]; [assumption|].
      apply nullable_lang in H'. congruence.
  - split; intros H; apply lang_Alt_inv in H as [H|H];
      ((apply lang_Alt_l, IH1; assumption)
       || (apply lang_Alt_r, IH2; assumption)).
  - split; intros H.
    + apply lang_Seq_inv in H as (w1 & w2 & -> & H1 & H2).
      apply IH1 in H1. apply (lang_Star_cons _ (c :: w1) w2 H1 H2).
    + apply lang_Star_uncons in H as (w1 & w2 & -> & H1 & H2).
      apply lang_Seq; [apply IH1; assumption | assumption].
Qed.

Theorem matches_lang (r : regex) (w : list ascii) :
  matches r w = true ↔ lang r w.
Proof.
  revert r. induction w as [|c w IH]; intros r; simpl.
  - apply nullable_lang.
  - rewrite IH. apply deriv_lang.
Qed.

(** *** The file names the download route accepts *)

Lemma lang_Lit (s w : list ascii) : lang (Lit s) w ↔ w = s.
Proof.
  revert w. induction s as [|c s IH]; intros w; simpl.
  - split; [apply lang_Empty_inv | intros ->; constructor].
  - split.
    + intros H. apply lang_Seq_inv in H as (w1 & w2 & -> & H1 & H2).
      apply lang_Class_inv in H1 as (c' & -> & Hc).
      apply Ascii.eqb_eq in Hc as ->. apply IH in H2 as ->. reflexivity.
    + intros ->. apply (lang_Seq _ _ [c] s).
      * constructor. apply Ascii.eqb_refl.
      * apply IH. reflexivity.
Qed.

Lemma lang_Star_Class (p : ascii → bool) (w : list ascii) :
  lang (Star (Class p)) w ↔ Forall (fun c => p c = true) w.
Proof.
  split.
  - intros H. remember (Star (Class p)) as s eqn:Es.
    induction H as [| | | | | |r1 w1 w2 H1 _ H2 IH2]; try discriminate.
    + constructor.
    + injection Es as ->.
      apply lang_Class_inv in H1 as (c & -> & Hc).
      constructor; [assumption | apply IH2; reflexivity].
  - induction 1 as [|c w Hc _ IH]; [constructor|].
    apply (lang_Star_cons _ [c] w); [constructor; assumption | assumption].
Qed.

Lemma lang_Plus_Class (p : ascii → bool) (w : list ascii) :
  lang (Plus (Class p)) w ↔ w ≠ [] ∧ Forall (fun c => p c = true) w.
Proof.
  unfold Plus. split.
  - intros H. apply lang_Seq_inv in H as (w1 & w2 & -> & H1 & H2).
    apply lang_Class_inv in H1 as (c & -> & Hc).
    apply lang_Star_Class in H2. split; [discriminate|].
    constructor; assumption.
  - intros [Hne Hall]. destruct Hall as [|c w Hc Hall]; [congruence|].
    apply (lang_Seq _ _ [c] w); [constructor; assumption|].
    apply lang_Star_Class. assumption.
Qed.

Lemma list_ascii_of_string_app (s t : string) :
  list_ascii_of_string (s +:+ t)
  = list_ascii_of_string s ++ list_ascii_of_string t.
Proof. induction s as [|c s IH]; simpl; [reflexivity | rewrite IH; reflexivity]. Qed.

Lemma string_of_list_ascii_app (l k : list ascii) :
  string_of_list_ascii (l ++ k)
  = string_of_list_ascii l +:+ string_of_list_ascii k.
Proof. induction l as [|c l IH]; simpl; [reflexivity | rewrite IH; reflexivity]. Qed.

(** The expression accepts exactly the names made of a well-formed
    identifier followed by ".ico" or ".icns". *)
Theorem filename_re_spec (filename : string) :
  RegExp_test filename_re filename = true
  ↔ ∃ id : string,
      well_formed_id id
      ∧ (filename = id +:+ ".ico" ∨ filename = id +:+ ".icns").
Proof.
  unfold RegExp_test. rewrite matches_lang. unfold filename_re, Chr. split.
  - intros H. apply lang_Seq_inv in H as (w1 & w2 & Hw & H1 & H2).
    apply lang_Plus_Class in H1 as [Hne Hall].
    apply lang_Seq_inv in H2 as (w3 & w4 & -> & H3 & H4).
    apply lang_Class_inv in H3 as (c & -> & Hc).
    apply Ascii.eqb_eq in Hc as <-.
    exists (string_of_list_ascii w1). split.
    + split.
      * destruct w1; [congruence | discriminate].
      * unfold alnum. rewrite list_ascii_of_string_of_list_ascii. assumption.
    + rewrite <- (string_of_list_ascii_of_string filename), Hw.
      rewrite string_of_list_ascii_app.
      apply lang_Alt_inv in H4 as [H4|H4]; apply lang_Lit in H4 as ->;
        [left | right]; reflexivity.
  - intros (id & [Hne Hall] & Hname).
    assert (Hplus : lang (Plus (Class lower_or_digit)) (list_ascii_of_string id)).
    { apply lang_Plus_Class. split; [|exact Hall].
      destruct id; [congruence | discriminate]. }
    destruct Hname as [-> | ->]; rewrite list_ascii_of_string_app;
      apply lang_Seq; try exact Hplus;
      apply (lang_Seq _ _ ["."%char]);
      try (constructor; reflexivity).
    + apply lang_Alt_l, lang_Lit. reflexivity.
    + apply lang_Alt_r, lang_Lit. reflexivity.
Qed.

Lemma lower_or_digit_not_separator (c : ascii) :
  lower_or_digit c = true → c ≠ "/"%char ∧ c ≠ "\"%char.
Proof. intros H. split; intros ->; discriminate H. Qed.

(** No accepted name contains a directory separator, which is why a name
    stands for its path under the output directory. *)
Lemma accepted_name_has_no_separator (filename : string) :
  RegExp_test filename_re filename = true →
  Forall (fun c => c ≠ "/"%char ∧ c ≠ "\"%char) (list_ascii_of_string filename).
Proof.
  intros H. apply filename_re_spec in H as (id & [_ Hid] & Hname).
  assert (Hpre : Forall (fun c => c ≠ "/"%char ∧ c ≠ "\"%char)
                        (list_ascii_of_string id)).
  { eapply Forall_impl; [exact Hid|]. apply lower_or_digit_not_separator. }
  destruct Hname as [-> | ->]; rewrite list_ascii_of_string_app;
    apply Forall_app; (split; [exact Hpre|]);
    repeat constructor; discriminate.
Qed.

(** *** Identifiers *)

Lemma digit36_alnum (d : Z) : lower_or_digit (digit36 d) = true.
Proof.
  unfold digit36. generalize (Z.to_nat d) as n. intros n.
  do 36 (destruct n as [|n]; [reflexivity|]).
  simpl. destruct n; reflexivity.
Qed.

Lemma digits36_alnum (fuel : nat) :
  ∀ (n : Z) (acc : list ascii), alnum acc → alnum (digits36 fuel n acc).
Proof.
  induction fuel as [|fuel IH]; intros n acc Hacc; simpl; [assumption|].
  assert (Hacc' : alnum (digit36 (n mod 36) :: acc))
    by (constructor; [apply digit36_alnum | assumption]).
  destruct (n / 36 =? 0); [assumption | apply IH; assumption].
Qed.

Lemma digits36_grows (fuel : nat) :
  ∀ (n : Z) (acc : list ascii),
    (List.length acc ≤ List.length (digits36 fuel n acc))%nat.
Proof.
  induction fuel as [|fuel IH]; intros n acc; simpl; [lia|].
  destruct (n / 36 =? 0); simpl; [lia|].
  etransitivity; [|apply IH]. simpl. lia.
Qed.

Lemma Number_toString36_well_formed (n : Z) :
  0 <= n → well_formed_id (Number_toString36 n).
Proof.
  intros Hn. unfold Number_toString36. cbv zeta.
  destruct (Z.ltb_spec n 0); [lia|].
  set (ds := digits36 _ _ _). split.
  - assert (Hlen : (1 ≤ List.length ds)%nat).
    { subst ds. cbn [digits36].
      destruct (Z.abs n / 36 =? 0); simpl; [lia|].
      etransitivity; [|apply digits36_grows]. simpl. lia. }
    destruct ds; [simpl in Hlen; lia | discriminate].
  - unfold alnum. rewrite list_ascii_of_string_of_list_ascii.
    apply digits36_alnum. constructor.
Qed.

Lemma digit_value_digit36 (d : Z) :
  0 <= d < 36 → digit_value (digit36 d) = d.
Proof.
  intros Hd. unfold digit36.
  rewrite <- (Z2Nat.id d) at 2 by lia.
  assert (Hn : (Z.to_nat d < 36)%nat) by lia.
  revert Hn. generalize (Z.to_nat d) as n. intros n Hn.
  do 36 (destruct n as [|n]; [reflexivity|]). lia.
Qed.

(** The fuel suffices: the digits produced for a number below 2^fuel read
    back as that number. *)
Lemma digits36_value (fuel : nat) :
  ∀ (n : Z) (acc : list ascii),
    0 <= n < 2 ^ Z.of_nat fuel →
    fold_left (fun a c => a * 36 + digit_value c) (digits36 fuel n acc) 0
    = fold_left (fun a c => a * 36 + digit_value c) acc n.
Proof.
  induction fuel as [|fuel IH]; intros n acc Hn.
  - change (2 ^ Z.of_nat 0) with 1 in Hn.
    replace n with 0 by lia. reflexivity.
  - rewrite Nat2Z.inj_succ, Z.pow_succ_r in Hn by lia.
    assert (Hpow : 0 < 2 ^ Z.of_nat fuel) by (apply Z.pow_pos_nonneg; lia).
    pose proof (Z.div_mod n 36 ltac:(lia)) as Hdm.
    pose proof (Z.mod_pos_bound n 36 ltac:(lia)) as Hmod.
    cbn [digits36]. cbv zeta.
    destruct (Z.eqb_spec (n / 36) 0) as [Hq|Hq].
    + cbn [fold_left]. rewrite digit_value_digit36 by lia.
      f_equal. lia.
    + rewrite IH.
      * cbn [fold_left]. rewrite digit_value_digit36 by lia.
        f_equal. lia.
      * split; [apply Z.div_pos; lia|].
        apply Z.div_lt_upper_bound; lia.
Qed.

(** The base-36 rendering of a number that is not negative denotes it. *)
Lemma Number_toString36_value (n : Z) :
  0 <= n → value36 (Number_toString36 n) = n.
Proof.
  intros Hn. unfold value36, Number_toString36. cbv zeta.
  destruct (Z.ltb_spec n 0); [lia|].
  rewrite list_ascii_of_string_of_list_ascii, Z.abs_eq by lia.
  rewrite digits36_value; [reflexivity|].
  split; [lia|].
  rewrite Nat2Z.inj_succ, Z2Nat.id by apply Z.log2_nonneg.
  destruct (Z.eq_dec n 0) as [->|Hnz]; [reflexivity|].
  apply Z.log2_spec. lia.
Qed.

(** A draw whose fraction prints a single digit, such as 0.5, gives a
    suffix of one character. *)
Example short_random_suffix :
  random_toString36 {| int_digit := 0; frac_digits := [18] |} = "0.i"
  ∧ String_slice (random_toString36 {| int_digit := 0; frac_digits := [18] |})
      2 8 = "i".
Proof. split; reflexivity. Qed.

Lemma substring_alnum (s : string) :
  ∀ n m : nat,
    alnum (list_ascii_of_string s) →
    alnum (list_ascii_of_string (substring n m s)).
Proof.
  induction s as [|c s IH]; intros n m Hs.
  - destruct n, m; simpl; constructor.
  - apply Forall_cons in Hs as [Hc Hs].
    destruct n as [|n].
    + destruct m as [|m]; simpl; [constructor|].
      constructor; [assumption | apply IH; assumption].
    + simpl. apply IH. assumption.
Qed.

Lemma substring_length_le (s : string) :
  ∀ n m : nat, (String.length (substring n m s) ≤ m)%nat.
Proof.
  induction s as [|c s IH]; intros n m.
  - destruct n, m; simpl; lia.
  - destruct n as [|n].
    + destruct m as [|m]; simpl; [lia|]. specialize (IH 0%nat m). lia.
    + simpl. apply IH.
Qed.

(** The random suffix: at most six characters, lowercase letters and digits
    only, whatever the draw. *)
Lemma random_suffix_alnum (rnd : RandomDraw) :
  alnum (list_ascii_of_string (String_slice (random_toString36 rnd) 2 8))
  ∧ (String.length (String_slice (random_toString36 rnd) 2 8) ≤ 6)%nat.
Proof.
  split; [|apply substring_length_le].
  unfold String_slice, random_toString36.
  destruct (frac_digits rnd) as [|d ds]; [constructor|].
  change (substring 2 (8 - 2) (String ?c (String ?p ?s)))
    with (substring 0 6 s).
  apply substring_alnum. unfold alnum.
  rewrite list_ascii_of_string_of_list_ascii.
  apply Forall_fmap, Forall_true. intros x. apply digit36_alnum.
Qed.

Lemma well_formed_id_app (s t : string) :
  well_formed_id s → alnum (list_ascii_of_string t) → well_formed_id (s +:+ t).
Proof.
  intros [Hne Hs] Ht. split.
  - destruct s; [congruence | discriminate].
  - unfold alnum. rewrite list_ascii_of_string_app.
    apply Forall_app. split; assumption.
Qed.

(** Every identifier of the conversion handler is well formed, provided the
    clock does not read a date before 1970. *)
Lemma conversion_id_well_formed (now : Z) (rnd : RandomDraw) :
  0 <= now → well_formed_id (conversion_id now rnd).
Proof.
  intros Hnow. unfold conversion_id. apply well_formed_id_app.
  - apply Number_toString36_well_formed. assumption.
  - apply random_suffix_alnum.
Qed.

Lemma well_formed_id_accepted (id : string) :
  well_formed_id id →
  RegExp_test filename_re (id +:+ ".ico") = true
  ∧ RegExp_test filename_re (id +:+ ".icns") = true.
Proof.
  intros Hid. split; apply filename_re_spec; exists id; auto.
Qed.

Lemma ico_icns_distinct (id : string) : id +:+ ".ico" ≠ id +:+ ".icns".
Proof.
  induction id as [|c id IH]; simpl; [discriminate|].
  intros [= H]. apply IH. exact H.
Qed.

(** *** Extensions *)

Lemma last_dot_suffix_app (s ext : string) :
  (∃ t, last_dot_suffix ext = Some t) →
  last_dot_suffix (s +:+ ext) = last_dot_suffix ext.
Proof.
  intros [t Ht]. induction s as [|c s IH]; simpl; [reflexivity|].
  rewrite IH, Ht. reflexivity.
Qed.

Lemma path_extname_ico (id : string) :
  well_formed_id id → path_extname (id +:+ ".ico") = ".ico".
Proof.
  intros [Hne _]. destruct id as [|c s]; [congruence|]. simpl.
  rewrite last_dot_suffix_app by (eexists; reflexivity).
  reflexivity.
Qed.

Lemma path_extname_icns (id : string) :
  well_formed_id id → path_extname (id +:+ ".icns") = ".icns".
Proof.
  intros [Hne _]. destruct id as [|c s]; [congruence|]. simpl.
  rewrite last_dot_suffix_app by (eexists; reflexivity).
  reflexivity.
Qed.

(** *** The download handler *)

(** The download handler, path by path. *)
Lemma download_run (filename : string) (w : World) :
  download filename w =
    if RegExp_test filename_re filename
    then
      match files w !! filename with
      | Some contents =>
          (Ok (File (download_mimeType filename)
                    (download_disposition filename) contents),
           add_calls [CallExistsSync filename; CallSendFile filename] w)
      | None =>
          (Ok (Status 404 "File not found or expired"),
           add_calls [CallExistsSync filename] w)
      end
    else (Ok (Status 400 "Invalid filename"), w).
Proof.
  unfold download. destruct (RegExp_test filename_re filename); cbn [negb];
    [|reflexivity].
  cbv beta iota delta [mbind Action_bind mret Action_ret]. unfold fs.existsSync.
  destruct (files w !! filename) as [contents|] eqn:Hfile.
  - rewrite bool_decide_eq_true_2 by eauto. cbn [negb].
    unfold sendFile. cbn [files log]. rewrite Hfile.
    unfold add_calls, log. cbn [files timers calls].
    rewrite <- app_assoc. reflexivity.
  - rewrite bool_decide_eq_false_2 by (intros [? ?]; discriminate).
    reflexivity.
Qed.

Lemma download_mimeType_ico (id : string) :
  well_formed_id id → download_mimeType (id +:+ ".ico") = "image/x-icon".
Proof.
  intros Hid. unfold download_mimeType. rewrite path_extname_ico by assumption.
  reflexivity.
Qed.

Lemma download_mimeType_icns (id : string) :
  well_formed_id id → download_mimeType (id +:+ ".icns") = "image/icns".
Proof.
  intros Hid. unfold download_mimeType. rewrite path_extname_icns by assumption.
  reflexivity.
Qed.

(** [C8] A file name that the pattern does not match is answered with
    status 400 at once: the world is returned as it was received, so no
    file was looked up, read or changed, and no call to [fs] was recorded.
    The two names of the specification are such names. *)
Theorem C8_invalid_filename_rejected_before_storage
    (filename : string) (w : World) :
  RegExp_test filename_re filename = false →
  download filename w = (Ok (Status 400 "Invalid filename"), w)
  ∧ calls (snd (download filename w)) = calls w
  ∧ files (snd (download filename w)) = files w
  ∧ RegExp_test filename_re "../etc/passwd.ico" = false
  ∧ RegExp_test filename_re "ABC123.exe" = false.
Proof.
  intros Hre. rewrite download_run, Hre. repeat split.
Qed.

Lemma C8_witness :
  download "../etc/passwd.ico" empty_world
  = (Ok (Status 400 "Invalid filename"), empty_world).
Proof.
  apply (C8_invalid_filename_rejected_before_storage
           "../etc/passwd.ico" empty_world).
  reflexivity.
Defined.

Lemma download_present (id : string) (kind : Kind) (w : World)
    (contents : list byte) :
  well_formed_id id →
  files w !! artifact_name id kind = Some contents →
  download (artifact_name id kind) w
  = (Ok (File (kind_mimeType kind)
              (download_disposition (artifact_name id kind)) contents),
     add_calls [ CallExistsSync (artifact_name id kind);
                 CallSendFile (artifact_name id kind) ] w).
Proof.
  intros Hid Hfile. rewrite download_run, Hfile.
  destruct (well_formed_id_accepted id Hid) as [Hico Hicns].
  destruct kind; unfold artifact_name, kind_mimeType.
  - rewrite Hico, download_mimeType_ico by assumption. reflexivity.
  - rewrite Hicns, download_mimeType_icns by assumption. reflexivity.
Qed.

Lemma download_absent (id : string) (kind : Kind) (w : World) :
  well_formed_id id →
  files w !! artifact_name id kind = None →
  download (artifact_name id kind) w
  = (Ok (Status 404 "File not found or expired"),
     add_calls [CallExistsSync (artifact_name id kind)] w).
Proof.
  intros Hid Hfile. rewrite download_run, Hfile.
  destruct (well_formed_id_accepted id Hid) as [Hico Hicns].
  destruct kind; unfold artifact_name; [rewrite Hico | rewrite Hicns];
    reflexivity.
Qed.

(** [C6] fails as stated: an identifier that was never issued and is not
    made of lowercase letters and digits is answered with status 400
    "Invalid filename", not with the not-found answer. *)
Lemma C6_counterexample :
  ¬ (∀ (id : string) (kind : Kind) (w : World),
       files w !! artifact_name id kind = None →
       fst (download (artifact_name id kind) w)
       = Ok (Status 404 "File not found or expired")).
Proof.
  intros Hclaim.
  specialize (Hclaim "ABC" Ico empty_world eq_refl).
  vm_compute in Hclaim. discriminate Hclaim.
Qed.

(** [C6], amended.  For every identifier made of lowercase letters and
    digits (at least one) and every kind, retrieval returns the stored
    buffer when the file of that identifier and kind is in the store, and
    answers 404 "File not found or expired" when it is not, be it that the
    identifier was never issued, that it expired, or that this file was
    already purged. *)
Theorem C6_retrieval_of_well_formed_id
    (id : string) (kind : Kind) (w : World) :
  well_formed_id id →
  fst (download (artifact_name id kind) w) =
    match files w !! artifact_name id kind with
    | Some contents =>
        Ok (File (kind_mimeType kind)
                 (download_disposition (artifact_name id kind)) contents)
    | None => Ok (Status 404 "File not found or expired")
    end.
Proof.
  intros Hid. destruct (files w !! artifact_name id kind) as [c|] eqn:Hfile.
  - rewrite (download_present id kind w c) by assumption. reflexivity.
  - rewrite download_absent by assumption. reflexivity.
Qed.

Lemma abc123_well_formed : well_formed_id "abc123".
Proof. split; [discriminate | repeat constructor]. Qed.

Lemma C6_witness :
  fst (download "abc123.icns"
         {| files := {[ "abc123.icns" := [x69; x63; x6e; x73] ]};
            timers := []; calls := [] |})
  = Ok (File "image/icns"
             (download_disposition "abc123.icns") [x69; x63; x6e; x73])
  ∧ fst (download "abc123.ico"
           {| files := {[ "abc123.icns" := [x69; x63; x6e; x73] ]};
              timers := []; calls := [] |})
    = Ok (Status 404 "File not found or expired").
Proof.
  split.
  - etransitivity;
      [ apply (C6_retrieval_of_well_formed_id "abc123" Icns _ abc123_well_formed)
      | vm_compute; reflexivity ].
  - etransitivity;
      [ apply (C6_retrieval_of_well_formed_id "abc123" Ico _ abc123_well_formed)
      | vm_compute; reflexivity ].
Defined.

(** *** The clean-up *)

(** The callback never throws and leaves neither file behind. *)
Lemma cleanup_eq (icoPath icnsPath : string) (w : World) :
  ∃ cs : list Call,
    cleanup icoPath icnsPath w
    = (Ok (),
       {| files := delete icnsPath (delete icoPath (files w));
          timers := timers w; calls := calls w ++ cs |}).
Proof.
  unfold cleanup, try_catch.
  cbv beta iota delta [mbind Action_bind mret Action_ret].
  unfold fs.existsSync at 1.
  destruct (files w !! icoPath) as [c1|] eqn:H1.
  - rewrite bool_decide_eq_true_2 by eauto.
    unfold fs.unlinkSync at 1. cbn [files log]. rewrite H1.
    unfold fs.existsSync. cbn [files log].
    destruct (delete icoPath (files w) !! icnsPath) as [c2|] eqn:H2.
    + rewrite bool_decide_eq_true_2 by eauto.
      unfold fs.unlinkSync. cbn [files log]. rewrite H2.
      eexists. unfold log. cbn [files timers calls].
      rewrite <- !app_assoc. reflexivity.
    + rewrite bool_decide_eq_false_2 by (intros [? ?]; discriminate).
      rewrite (delete_id _ _ H2).
      eexists. unfold log. cbn [files timers calls].
      rewrite <- !app_assoc. reflexivity.
  - rewrite bool_decide_eq_false_2 by (intros [? ?]; discriminate).
    unfold fs.existsSync. cbn [files log].
    rewrite (delete_id _ _ H1).
    destruct (files w !! icnsPath) as [c2|] eqn:H2.
    + rewrite bool_decide_eq_true_2 by eauto.
      unfold fs.unlinkSync. cbn [files log]. rewrite H2.
      eexists. unfold log. cbn [files timers calls].
      rewrite <- !app_assoc. reflexivity.
    + rewrite bool_decide_eq_false_2 by (intros [? ?]; discriminate).
      rewrite (delete_id _ _ H2).
      eexists. unfold log. cbn [files timers calls].
      rewrite <- !app_assoc. reflexivity.
Qed.

Lemma cleanup_run (icoPath icnsPath : string) (w : World) :
  fst (cleanup icoPath icnsPath w) = Ok ()
  ∧ files (snd (cleanup icoPath icnsPath w))
    = delete icnsPath (delete icoPath (files w))
  ∧ timers (snd (cleanup icoPath icnsPath w)) = timers w.
Proof.
  destruct (cleanup_eq icoPath icnsPath w) as [cs ->]. repeat split.
Qed.

Lemma fire_timer_run (i : nat) (t : Timer) (w : World) :
  timers w !! i = Some t →
  files (fire_timer i w)
  = delete (timer_icnsPath t) (delete (timer_icoPath t) (files w))
  ∧ timers (fire_timer i w) = delete i (timers w).
Proof.
  intros Ht. unfold fire_timer. rewrite Ht.
  destruct (cleanup_run (timer_icoPath t) (timer_icnsPath t)
              {| files := files w; timers := delete i (timers w);
                 calls := calls w |}) as (_ & Hf & Htm).
  split; assumption.
Qed.

Lemma all_results_Forall2 {A B} (f : A → result B) (xs : list A) :
  ∀ ys, all_results (f <$> xs) = Ok ys → Forall2 (fun x y => f x = Ok y) xs ys.
Proof.
  induction xs as [|x xs IH]; intros ys.
  - intros [= <-]. constructor.
  - rewrite fmap_cons. cbn [all_results].
    destruct (f x) as [y|e] eqn:Hx; cbn [mbind result_bind]; [|discriminate].
    destruct (all_results (f <$> xs)) as [l|e]; cbn [mbind result_bind];
      [|discriminate].
    intros [= <-]. constructor; [assumption | apply IH; reflexivity].
Qed.

(** *** The conversion handler *)

Section ConversionProofs.

Variable sharp : ResizeRequest → result (list byte).
Variable pngToIco : list (list byte) → result (list byte).

Lemma convert_no_file (now : Z) (rnd : RandomDraw) (w : World) :
  convert sharp pngToIco now rnd None w
  = (Ok (Status 400 "No image file provided"), w).
Proof. reflexivity. Qed.

(** A conversion that answers with the two download addresses went through
    all four stages, wrote both files and armed one timer. *)
Lemma convert_Json_inv (now : Z) (rnd : RandomDraw) (file : option (list byte))
    (w : World) (icoUrl icnsUrl : string) :
  fst (convert sharp pngToIco now rnd file w) = Ok (Json icoUrl icnsUrl) →
  ∃ img pngs ico entries icns,
    file = Some img
    ∧ all_results (sharp <$> ico_requests img) = Ok pngs
    ∧ pngToIco pngs = Ok ico
    ∧ all_results (entry_result sharp img <$> ICNS_SIZES) = Ok entries
    ∧ buildIcns entries = Ok icns
    ∧ icoUrl = "/api/download/" +:+ conversion_id now rnd +:+ ".ico"
    ∧ icnsUrl = "/api/download/" +:+ conversion_id now rnd +:+ ".icns"
    ∧ snd (convert sharp pngToIco now rnd file w)
      = {| files :=
             <[conversion_id now rnd +:+ ".icns" := icns]>
               (<[conversion_id now rnd +:+ ".ico" := ico]> (files w));
           timers :=
             timers w
             ++ [ {| delay := 300000;
                     timer_icoPath := conversion_id now rnd +:+ ".ico";
                     timer_icnsPath := conversion_id now rnd +:+ ".icns" |} ];
           calls :=
             calls w
             ++ ((CallSharp <$> ico_requests img)
                 ++ [ CallPngToIco pngs;
                      CallWriteFileSync (conversion_id now rnd +:+ ".ico") ico ]
                 ++ (CallSharp <$> icns_requests img))
             ++ [ CallBuildIcns entries;
                  CallWriteFileSync (conversion_id now rnd +:+ ".icns") icns;
                  CallSetTimeout 300000 ] |}.
Proof.
  destruct file as [img|]; [|discriminate].
  rewrite convert_run. cbv zeta.
  destruct (all_results (sharp <$> ico_requests img)) as [pngs|e] eqn:H1;
    [|discriminate].
  destruct (pngToIco pngs) as [ico|e] eqn:H2; [|discriminate].
  destruct (all_results (entry_result sharp img <$> ICNS_SIZES))
    as [entries|e] eqn:H3; [|discriminate].
  destruct (buildIcns entries) as [icns|e] eqn:H4; [|discriminate].
  cbn [fst snd]. intros [= <- <-].
  exists img, pngs, ico, entries, icns. repeat split; assumption.
Qed.

(** After a conversion both files can be downloaded, and the bytes that
    come back are the bytes that were written. *)
Lemma download_after_convert (now : Z) (rnd : RandomDraw)
    (file : option (list byte)) (w : World) (icoUrl icnsUrl : string) :
  0 <= now →
  fst (convert sharp pngToIco now rnd file w) = Ok (Json icoUrl icnsUrl) →
  ∃ pngs ico entries icns,
    pngToIco pngs = Ok ico
    ∧ buildIcns entries = Ok icns
    ∧ files (snd (convert sharp pngToIco now rnd file w))
      = <[artifact_name (conversion_id now rnd) Icns := icns]>
          (<[artifact_name (conversion_id now rnd) Ico := ico]> (files w))
    ∧ fst (download (artifact_name (conversion_id now rnd) Ico)
             (snd (convert sharp pngToIco now rnd file w)))
      = Ok (File "image/x-icon"
                 (download_disposition
                    (artifact_name (conversion_id now rnd) Ico)) ico)
    ∧ fst (download (artifact_name (conversion_id now rnd) Icns)
             (snd (convert sharp pngToIco now rnd file w)))
      = Ok (File "image/icns"
                 (download_disposition
                    (artifact_name (conversion_id now rnd) Icns)) icns).
Proof.
  intros Hnow Hok.
  pose proof (conversion_id_well_formed now rnd Hnow) as Hid.
  apply convert_Json_inv in Hok
    as (img & pngs & ico & entries & icns & _ & _ & Hico & _ & Hicns
        & _ & _ & ->).
  exists pngs, ico, entries, icns. split; [assumption|].
  split; [assumption|]. split; [reflexivity|]. split.
  - rewrite (download_present _ Ico _ ico); [reflexivity | assumption |].
    cbn [files]. unfold artifact_name.
    rewrite lookup_insert_ne by (intros Heq; symmetry in Heq;
                                 exact (ico_icns_distinct _ Heq)).
    apply lookup_insert_eq.
  - rewrite (download_present _ Icns _ icns); [reflexivity | assumption |].
    cbn [files]. unfold artifact_name. apply lookup_insert_eq.
Qed.

Lemma entry_result_Ok (img : list byte) (row : Z * string) (e : IcnsEntry) :
  entry_result sharp img row = Ok e →
  osType e = row.2 ∧ sharp (resize_request img row.1) = Ok (data e).
Proof.
  unfold entry_result.
  destruct (sharp (resize_request img row.1)) as [d|err];
    cbn [mbind result_bind]; [|discriminate].
  intros [= <-]. split; reflexivity.
Qed.

(** [C5] For every source image on which the resizes and the ICO encoder
    succeed, the handler issues exactly 14 resize operations: one per entry
    of the ICO table 16, 24, 32, 48, 64, 128, 256 and then one per entry of
    the ICNS table, each on the same source buffer, each asking for a square
    of the target edge with fit "contain" on a background of alpha 0; the
    ICO encoder receives the results of the first seven in table order
    before the second seven start, the ICNS encoder receives the results of
    the second seven in table order, each with the tag of its row; both
    tables are in ascending order. *)
Theorem C5_fourteen_resizes_feed_the_encoders
    (now : Z) (rnd : RandomDraw) (img : list byte) (w : World)
    (pngs : list (list byte)) (ico : list byte) (entries : list IcnsEntry) :
  all_results (sharp <$> ico_requests img) = Ok pngs →
  pngToIco pngs = Ok ico →
  all_results (entry_result sharp img <$> ICNS_SIZES) = Ok entries →
  ∃ cs rest : list Call,
    calls (snd (convert sharp pngToIco now rnd (Some img) w)) = calls w ++ cs
    ∧ List.filter is_CallSharp cs
      = CallSharp
          <$> ((fun size =>
                  {| input := img; width := size; height := size;
                     fit := "contain";
                     background := {| r := 0; g := 0; b := 0; alpha := 0 |} |})
                 <$> [16; 24; 32; 48; 64; 128; 256;
                      16; 32; 64; 128; 256; 512; 1024])
    ∧ List.length (List.filter is_CallSharp cs) = 14%nat
    ∧ cs = (CallSharp <$> (resize_request img <$> ICO_SIZES))
           ++ [ CallPngToIco pngs;
                CallWriteFileSync (conversion_id now rnd +:+ ".ico") ico ]
           ++ (CallSharp <$> (resize_request img <$> ICNS_SIZES.*1))
           ++ CallBuildIcns entries :: rest
    ∧ Forall (fun c => is_CallSharp c = false) rest
    ∧ Forall2 (fun size png => sharp (resize_request img size) = Ok png)
              ICO_SIZES pngs
    ∧ Forall2 (fun row e =>
                 osType e = row.2
                 ∧ sharp (resize_request img row.1) = Ok (data e))
              ICNS_SIZES entries
    ∧ ICO_SIZES = [16; 24; 32; 48; 64; 128; 256]
    ∧ StronglySorted Z.lt ICO_SIZES
    ∧ StronglySorted Z.lt ICNS_SIZES.*1.
Proof.
  intros H1 H2 H3. rewrite convert_run, H1, H2, H3. cbv zeta.
  assert (HF1 : Forall2 (fun size png => sharp (resize_request img size) = Ok png)
                        ICO_SIZES pngs).
  { unfold ico_requests in H1. rewrite <- list_fmap_compose in H1.
    apply all_results_Forall2 in H1. exact H1. }
  assert (HF2 : Forall2 (fun row e =>
                           osType e = row.2
                           ∧ sharp (resize_request img row.1) = Ok (data e))
                        ICNS_SIZES entries).
  { apply all_results_Forall2 in H3.
    eapply Forall2_impl; [exact H3|]. intros row e. apply entry_result_Ok. }
  destruct (buildIcns entries) as [icns|e]; cbn [snd calls];
    eexists; eexists; (split; [reflexivity|]).
  - split; [reflexivity|]. split; [reflexivity|].
    split; [reflexivity|]. split; [repeat constructor|].
    repeat split; try assumption; repeat constructor.
  - split; [reflexivity|]. split; [reflexivity|].
    split; [reflexivity|]. split; [repeat constructor|].
    repeat split; try assumption; repeat constructor.
Qed.

Lemma delete_delete_idemp (p1 p2 : string) (m : gmap string (list byte)) :
  delete p2 (delete p1 (delete p2 (delete p1 m))) = delete p2 (delete p1 m).
Proof.
  apply map_eq. intros k. rewrite !lookup_delete.
  repeat case_decide; reflexivity.
Qed.

(** [C7] A successful conversion arms one timer of 5 * 60 * 1000 ms whose
    callback deletes the two files of the artifact.  Whenever that timer
    fires, both files are gone and retrieval of either kind answers 404.
    The callback never throws, does nothing when the files are already
    absent, and running it a second time changes nothing. *)
Theorem C7_deletion_after_retention_window
    (now : Z) (rnd : RandomDraw) (file : option (list byte)) (w : World)
    (icoUrl icnsUrl : string) :
  0 <= now →
  fst (convert sharp pngToIco now rnd file w) = Ok (Json icoUrl icnsUrl) →
  let id := conversion_id now rnd in
  let t := {| delay := 5 * 60 * 1000;
              timer_icoPath := artifact_name id Ico;
              timer_icnsPath := artifact_name id Icns |} in
  timers (snd (convert sharp pngToIco now rnd file w)) = timers w ++ [t]
  ∧ (∀ (v : World) (i : nat),
       timers v !! i = Some t →
       fst (download (artifact_name id Ico) (fire_timer i v))
       = Ok (Status 404 "File not found or expired")
       ∧ fst (download (artifact_name id Icns) (fire_timer i v))
         = Ok (Status 404 "File not found or expired")
       ∧ timers (fire_timer i v) = delete i (timers v))
  ∧ (∀ (p1 p2 : string) (v : World),
       fst (cleanup p1 p2 v) = Ok ()
       ∧ (files v !! p1 = None → files v !! p2 = None →
          files (snd (cleanup p1 p2 v)) = files v)
       ∧ files (snd (cleanup p1 p2 (snd (cleanup p1 p2 v))))
         = files (snd (cleanup p1 p2 v))).
Proof.
  intros Hnow Hok id t.
  pose proof (conversion_id_well_formed now rnd Hnow) as Hid. fold id in Hid.
  apply convert_Json_inv in Hok
    as (img & pngs & ico & entries & icns & _ & _ & _ & _ & _ & _ & _ & ->).
  split; [reflexivity|]. split.
  - intros v i Ht. destruct (fire_timer_run i t v Ht) as [Hf Htm].
    cbn [timer_icoPath timer_icnsPath t] in Hf.
    split; [|split; [|exact Htm]].
    + rewrite download_absent; [reflexivity | assumption |].
      rewrite Hf, lookup_delete_ne
        by (intros Heq; symmetry in Heq; exact (ico_icns_distinct _ Heq)).
      apply lookup_delete_eq.
    + rewrite download_absent; [reflexivity | assumption |].
      rewrite Hf. apply lookup_delete_eq.
  - intros p1 p2 v.
    destruct (cleanup_run p1 p2 v) as (Hr & Hf & _).
    destruct (cleanup_run p1 p2 (snd (cleanup p1 p2 v))) as (_ & Hf2 & _).
    split; [exact Hr|]. split.
    + intros Hn1 Hn2. rewrite Hf, (delete_id _ _ Hn1). apply delete_id, Hn2.
    + rewrite Hf2, Hf. apply delete_delete_idemp.
Qed.

(** [C9] After a successful conversion, with nothing in between, the
    download of each kind returns exactly the buffer that the conversion
    stored for it: the output of the ICO encoder for ico, the output of
    [buildIcns] for icns. *)
Theorem C9_put_then_get_returns_the_stored_buffers
    (now : Z) (rnd : RandomDraw) (file : option (list byte)) (w : World)
    (icoUrl icnsUrl : string) :
  0 <= now →
  fst (convert sharp pngToIco now rnd file w) = Ok (Json icoUrl icnsUrl) →
  let id := conversion_id now rnd in
  let w' := snd (convert sharp pngToIco now rnd file w) in
  ∃ (pngs : list (list byte)) (ico : list byte)
    (entries : list IcnsEntry) (icns : list byte),
    pngToIco pngs = Ok ico
    ∧ buildIcns entries = Ok icns
    ∧ files w' = <[artifact_name id Icns := icns]>
                   (<[artifact_name id Ico := ico]> (files w))
    ∧ fst (download (artifact_name id Ico) w')
      = Ok (File "image/x-icon"
                 (download_disposition (artifact_name id Ico)) ico)
    ∧ fst (download (artifact_name id Icns) w')
      = Ok (File "image/icns"
                 (download_disposition (artifact_name id Icns)) icns).
Proof.
  intros Hnow Hok id w'. exact (download_after_convert _ _ _ _ _ _ Hnow Hok).
Qed.

(** [C10] Whatever the clock (from 1970 on) and the random draw, the
    identifier of a conversion is a non-empty string of lowercase letters
    and digits, its random suffix has at most six characters, and both file
    names built from it match the pattern of the download route; the two
    addresses a successful conversion returns are those names under
    /api/download/, and downloading each of them right away returns a
    file. *)
Theorem C10_generated_names_match_the_download_pattern
    (now : Z) (rnd : RandomDraw) :
  0 <= now →
  let id := conversion_id now rnd in
  id ≠ ""
  ∧ Forall (fun c => lower_or_digit c = true) (list_ascii_of_string id)
  ∧ (String.length (String_slice (random_toString36 rnd) 2 8) ≤ 6)%nat
  ∧ RegExp_test filename_re (id +:+ ".ico") = true
  ∧ RegExp_test filename_re (id +:+ ".icns") = true
  ∧ ∀ (file : option (list byte)) (w : World) (icoUrl icnsUrl : string),
      fst (convert sharp pngToIco now rnd file w) = Ok (Json icoUrl icnsUrl) →
      icoUrl = "/api/download/" +:+ id +:+ ".ico"
      ∧ icnsUrl = "/api/download/" +:+ id +:+ ".icns"
      ∧ ∃ (d1 d2 : string) (ico icns : list byte),
          fst (download (id +:+ ".ico")
                 (snd (convert sharp pngToIco now rnd file w)))
          = Ok (File "image/x-icon" d1 ico)
          ∧ fst (download (id +:+ ".icns")
                   (snd (convert sharp pngToIco now rnd file w)))
            = Ok (File "image/icns" d2 icns).
Proof.
  intros Hnow id.
  pose proof (conversion_id_well_formed now rnd Hnow) as Hid. fold id in Hid.
  destruct (well_formed_id_accepted id Hid) as [Hico Hicns].
  destruct Hid as [Hne Hall].
  split; [exact Hne|]. split; [exact Hall|].
  split; [apply random_suffix_alnum|].
  split; [exact Hico|]. split; [exact Hicns|].
  intros file w icoUrl icnsUrl Hok.
  destruct (download_after_convert _ _ _ _ _ _ Hnow Hok)
    as (pngs & ico & entries & icns & _ & _ & _ & Hd1 & Hd2).
  apply convert_Json_inv in Hok
    as (_ & _ & _ & _ & _ & _ & _ & _ & _ & _ & -> & -> & _).
  split; [reflexivity|]. split; [reflexivity|].
  eexists _, _, ico, icns. split; [exact Hd1 | exact Hd2].
Qed.

End ConversionProofs.

Lemma entries_follow_the_table
    (sharp : ResizeRequest → result (list byte)) (img : list byte)
    (rows : list (Z * string)) (entries : list IcnsEntry) :
  all_results (entry_result sharp img <$> rows) = Ok entries →
  osType <$> entries = rows.*2
  ∧ Forall2 (fun row e => sharp (resize_request img row.1) = Ok (data e))
            rows entries.
Proof.
  intros H. apply all_results_Forall2 in H.
  induction H as [|row e rows entries He _ [IH1 IH2]].
  - split; [reflexivity | constructor].
  - apply entry_result_Ok in He as [Htag Hdata].
    rewrite !fmap_cons, IH1, Htag. split; [reflexivity|].
    constructor; assumption.
Qed.

(** [C2] Every buffer returned by [buildIcns] for entries whose tags have
    four characters is the 8-byte header followed, with nothing in between
    and in the order of the list, by each entry's tag, the big-endian
    32-bit value 8 + payload length and the untouched payload.  The fixed
    table lists the sizes 16, 32, 64, 128, 256, 512, 1024 with the tags
    icp4, icp5, icp6, ic07, ic08, ic09, ic10, in ascending order, and the
    entries the conversion handler builds from it carry these tags in this
    order, each with the outcome of the resize to the size of its row. *)
Theorem C2_buildIcns_layout (entries : list IcnsEntry) (buf : list byte) :
  Forall (fun e => String.length (osType e) = 4%nat) entries →
  buildIcns entries = Ok buf →
  buf = icns_layout entries
  ∧ Forall (fun e => be_value (Buffer.uint32BE (8 + Buffer.length (data e)))
                     = 8 + Buffer.length (data e)) entries
  ∧ ICNS_SIZES = [ (16, "icp4"); (32, "icp5"); (64, "icp6"); (128, "ic07");
                   (256, "ic08"); (512, "ic09"); (1024, "ic10") ]
  ∧ StronglySorted Z.lt ICNS_SIZES.*1
  ∧ ∀ (sharp : ResizeRequest → result (list byte)) (img : list byte)
      (made : list IcnsEntry),
      all_results (entry_result sharp img <$> ICNS_SIZES) = Ok made →
      osType <$> made
      = ["icp4"; "icp5"; "icp6"; "ic07"; "ic08"; "ic09"; "ic10"]
      ∧ Forall2 (fun size e => sharp (resize_request img size) = Ok (data e))
                [16; 32; 64; 128; 256; 512; 1024] made
      ∧ Forall (fun e => String.length (osType e) = 4%nat) made.
Proof.
  intros Htags Hbuf. apply buildIcns_Ok_bound in Hbuf as [Hmax ->].
  split; [|split; [|split; [|split]]].
  - unfold icns_layout.
    rewrite icns_entry_bytes_layout by assumption. reflexivity.
  - eapply Forall_impl; [apply icns_entry_length_bound|]. simpl.
    intros e He. apply be_value_uint32BE.
    pose proof (buffer_length_nonneg (data e)). lia.
  - reflexivity.
  - repeat constructor.
  - intros sharp img made Hmade.
    apply entries_follow_the_table in Hmade as [Hnames Hdata].
    split; [exact Hnames|]. split.
    + change [16; 32; 64; 128; 256; 512; 1024] with (fst <$> ICNS_SIZES).
      apply Forall2_fmap_l. exact Hdata.
    + assert (H4 : Forall (fun tag => String.length tag = 4%nat)
                          (osType <$> made))
        by (rewrite Hnames; repeat constructor).
      apply Forall_fmap in H4. exact H4.
Qed.

Lemma C2_witness :
  let entries := [ {| osType := "icp4"; data := [x89; x50; x4e] |};
                   {| osType := "icp5"; data := [x47] |} ] in
  buildIcns entries
  = Ok ([x69; x63; x6e; x73; x00; x00; x00; x1c]
        ++ [x69; x63; x70; x34; x00; x00; x00; x0b; x89; x50; x4e]
        ++ [x69; x63; x70; x35; x00; x00; x00; x09; x47])
  ∧ be_value [x00; x00; x00; x0b] = 8 + 3.
Proof.
  intros entries.
  assert (Htags : Forall (fun e => String.length (osType e) = 4%nat) entries)
    by (repeat constructor).
  assert (Hrun : buildIcns entries
                 = Ok ([x69; x63; x6e; x73; x00; x00; x00; x1c]
                       ++ [x69; x63; x70; x34; x00; x00; x00; x0b; x89; x50; x4e]
                       ++ [x69; x63; x70; x35; x00; x00; x00; x09; x47]))
    by reflexivity.
  destruct (C2_buildIcns_layout entries _ Htags Hrun) as (_ & Hlen & _).
  split; [exact Hrun|].
  apply Forall_cons in Hlen as [H1 _]. exact H1.
Defined.

(** When the ICO stage has succeeded and the ICNS stage fails, be it in a
    resize or in the encoder, the request is answered with status 500 while
    the .ico file stays in the store and no timer is armed for it. *)
Lemma convert_icns_stage_failure
    (sharp : ResizeRequest → result (list byte))
    (pngToIco : list (list byte) → result (list byte))
    (now : Z) (rnd : RandomDraw) (img : list byte) (w : World)
    (pngs : list (list byte)) (ico : list byte) (e : exn) :
  all_results (sharp <$> ico_requests img) = Ok pngs →
  pngToIco pngs = Ok ico →
  (entries ← all_results (entry_result sharp img <$> ICNS_SIZES);
   buildIcns entries) = Throw e →
  fst (convert sharp pngToIco now rnd (Some img) w) = Ok (ErrorStatus 500 e)
  ∧ files (snd (convert sharp pngToIco now rnd (Some img) w))
    = <[artifact_name (conversion_id now rnd) Ico := ico]> (files w)
  ∧ timers (snd (convert sharp pngToIco now rnd (Some img) w)) = timers w.
Proof.
  intros H1 H2 H3. rewrite convert_run, H1, H2. cbv zeta.
  destruct (all_results (entry_result sharp img <$> ICNS_SIZES))
    as [entries|e1]; cbn [mbind result_bind] in H3.
  - rewrite H3. repeat split.
  - injection H3 as ->. repeat split.
Qed.

(** [C4] does not hold of the code.  Here the seven resizes of the ICO
    table and the ICO encoder succeed and the resize to 512 is rejected:
    the request is answered with status 500, the .ico file is in the store,
    the .icns file is not, and no timer will ever delete the .ico file. *)
Theorem C4_ico_stored_without_icns :
  let run := convert sample_sharp_small sample_pngToIco 1771459200000
               sample_draw (Some [x01]) empty_world in
  fst run = Ok (ErrorStatus 500 (ExternalError "resize failed"))
  ∧ files (snd run) !! "mlsp2io0123zab.ico"
    = Some [x89; x04; x89; x06; x89; x08; x89; x0c; x89; x10; x89; x20; x89; x40]
  ∧ files (snd run) !! "mlsp2io0123zab.icns" = None
  ∧ timers (snd run) = [].
Proof. vm_compute. repeat split. Qed.

Lemma C5_witness :
  ∃ cs : list Call,
    calls (snd (convert sample_sharp sample_pngToIco 1771459200000
                  sample_draw (Some [x01]) empty_world)) = cs
    ∧ List.length (List.filter is_CallSharp cs) = 14%nat.
Proof.
  edestruct (C5_fourteen_resizes_feed_the_encoders
               sample_sharp sample_pngToIco 1771459200000 sample_draw
               [x01] empty_world)
    as (cs & rest & Hcalls & _ & Hlen & _);
    [reflexivity | reflexivity | reflexivity |].
  exists cs. split; [exact Hcalls | exact Hlen].
Defined.

Lemma sample_conversion_runs :
  fst (convert sample_sharp sample_pngToIco 1771459200000 sample_draw
         (Some [x01]) empty_world)
  = Ok (Json "/api/download/mlsp2io0123zab.ico"
             "/api/download/mlsp2io0123zab.icns").
Proof. vm_compute. reflexivity. Qed.

Lemma C7_witness :
  timers (snd (convert sample_sharp sample_pngToIco 1771459200000
                 sample_draw (Some [x01]) empty_world))
  = [ {| delay := 300000; timer_icoPath := "mlsp2io0123zab.ico";
         timer_icnsPath := "mlsp2io0123zab.icns" |} ].
Proof.
  assert (Hnow : 0 <= 1771459200000) by lia.
  destruct (C7_deletion_after_retention_window
               sample_sharp sample_pngToIco 1771459200000 sample_draw
               (Some [x01]) empty_world _ _ Hnow sample_conversion_runs)
    as (Htimers & _).
  rewrite Htimers. vm_compute. reflexivity.
Defined.

Lemma C9_witness :
  ∃ ico icns : list byte,
    fst (download "mlsp2io0123zab.ico"
           (snd (convert sample_sharp sample_pngToIco 1771459200000
                   sample_draw (Some [x01]) empty_world)))
    = Ok (File "image/x-icon" (download_disposition "mlsp2io0123zab.ico") ico)
    ∧ fst (download "mlsp2io0123zab.icns"
             (snd (convert sample_sharp sample_pngToIco 1771459200000
                     sample_draw (Some [x01]) empty_world)))
      = Ok (File "image/icns" (download_disposition "mlsp2io0123zab.icns") icns).
Proof.
  assert (Hnow : 0 <= 1771459200000) by lia.
  destruct (C9_put_then_get_returns_the_stored_buffers
               sample_sharp sample_pngToIco 1771459200000 sample_draw
               (Some [x01]) empty_world _ _ Hnow sample_conversion_runs)
    as (pngs & ico & entries & icns & _ & _ & _ & Hico & Hicns).
  exists ico, icns.
  change "mlsp2io0123zab.ico"
    with (artifact_name (conversion_id 1771459200000 sample_draw) Ico).
  change "mlsp2io0123zab.icns"
    with (artifact_name (conversion_id 1771459200000 sample_draw) Icns).
  split; [exact Hico | exact Hicns].
Defined.

Lemma C10_witness :
  conversion_id 1771459200000 sample_draw = "mlsp2io0123zab"
  ∧ RegExp_test filename_re
      (conversion_id 1771459200000 sample_draw +:+ ".ico") = true
  ∧ RegExp_test filename_re
      (conversion_id 1771459200000 sample_draw +:+ ".icns") = true.
Proof.
  assert (Hnow : 0 <= 1771459200000) by lia.
  destruct (C10_generated_names_match_the_download_pattern
              sample_sharp sample_pngToIco 1771459200000 sample_draw Hnow)
    as (_ & _ & _ & Hico & Hicns & _).
  split; [reflexivity|]. split; [exact Hico | exact Hicns].
Defined.

(** ** Part III: further properties of the code *)

(** *** The encoder loses nothing *)






Lemma list_ascii_of_substring_0 (s : string) :
  ∀ n : nat,
    list_ascii_of_string (substring 0 n s) = take n (list_ascii_of_string s).
Proof.
  induction s as [|c s IH]; intros [|n]; simpl; try reflexivity.
  rewrite IH. reflexivity.
Qed.

Lemma tag_field_clip (tag : string) :
  tag_field (String_slice tag 0 4) = tag_field tag.
Proof.
  unfold tag_field, String_slice, ascii_bytes. cbv zeta.
  change (4 - 0)%nat with 4%nat.
  rewrite list_ascii_of_substring_0, fmap_take, take_take. reflexivity.
Qed.

(** [X2] [buildIcns] never looks past the fourth character of a tag:
    cutting every tag after four characters changes nothing of the result,
    be it a buffer or the exception. *)
Theorem X2_buildIcns_reads_four_tag_characters (entries : list IcnsEntry) :
  buildIcns (clip_tag <$> entries) = buildIcns entries.
Proof.
  rewrite !buildIcns_run.
  assert (Htotal : icns_total_length (clip_tag <$> entries)
                   = icns_total_length entries).
  { induction entries as [|e rest IH]; [reflexivity|].
    rewrite fmap_cons. cbn [icns_total_length clip_tag data]. rewrite IH.
    reflexivity. }
  assert (Hbytes : icns_entry_bytes <$> (clip_tag <$> entries)
                   = icns_entry_bytes <$> entries).
  { rewrite <- list_fmap_compose. apply list_fmap_ext. intros _ e _.
    unfold compose, icns_entry_bytes, clip_tag. cbn [osType data].
    rewrite tag_field_clip. reflexivity. }
  rewrite Htotal, Hbytes. reflexivity.
Qed.

(** *** File names *)

Lemma list_ascii_of_string_inj (s t : string) :
  list_ascii_of_string s = list_ascii_of_string t → s = t.
Proof.
  intros Heq.
  rewrite <- (string_of_list_ascii_of_string s),
          <- (string_of_list_ascii_of_string t), Heq.
  reflexivity.
Qed.

Lemma string_app_inv_tail (s1 s2 t : string) :
  s1 +:+ t = s2 +:+ t → s1 = s2.
Proof.
  intros Heq. apply list_ascii_of_string_inj.
  apply (f_equal list_ascii_of_string) in Heq.
  rewrite !list_ascii_of_string_app in Heq.
  exact (app_inv_tail _ _ _ Heq).
Qed.

Lemma ico_never_icns (s1 s2 : string) : s1 +:+ ".ico" ≠ s2 +:+ ".icns".
Proof.
  intros Heq. apply (f_equal list_ascii_of_string) in Heq.
  rewrite !list_ascii_of_string_app in Heq.
  change (list_ascii_of_string ".ico")
    with (list_ascii_of_string ".ic" ++ ["o"%char]) in Heq.
  change (list_ascii_of_string ".icns")
    with (list_ascii_of_string ".icn" ++ ["s"%char]) in Heq.
  rewrite !app_assoc in Heq.
  apply app_inj_tail in Heq as [_ Heq]. discriminate Heq.
Qed.

(** The file names of two artifacts are different unless identifier and
    kind are the same. *)
Lemma artifact_name_inj (id1 id2 : string) (k1 k2 : Kind) :
  artifact_name id1 k1 = artifact_name id2 k2 → id1 = id2 ∧ k1 = k2.
Proof.
  unfold artifact_name. destruct k1, k2; intros Heq.
  - split; [exact (string_app_inv_tail _ _ _ Heq) | reflexivity].
  - destruct (ico_never_icns _ _ Heq).
  - symmetry in Heq. destruct (ico_never_icns _ _ Heq).
  - split; [exact (string_app_inv_tail _ _ _ Heq) | reflexivity].
Qed.

(** *** What the handlers leave alone *)

Section HandlerProperties.

Variable sharp : ResizeRequest → result (list byte).
Variable pngToIco : list (list byte) → result (list byte).

(** Whatever its outcome, a conversion writes no file but its own two and
    keeps the pending timers, adding at most one. *)
Lemma convert_frame (now : Z) (rnd : RandomDraw) (file : option (list byte))
    (w : World) :
  (∀ path : string,
     path ≠ artifact_name (conversion_id now rnd) Ico →
     path ≠ artifact_name (conversion_id now rnd) Icns →
     files (snd (convert sharp pngToIco now rnd file w)) !! path
     = files w !! path)
  ∧ ∃ armed : list Timer,
      timers (snd (convert sharp pngToIco now rnd file w)) = timers w ++ armed
      ∧ (List.length armed ≤ 1)%nat.
Proof.
  unfold artifact_name. destruct file as [img|].
  - rewrite convert_run. cbv zeta.
    destruct (all_results (sharp <$> ico_requests img)) as [pngs|e].
    2: { split; [reflexivity|]. exists []. cbn. rewrite app_nil_r.
         split; [reflexivity | lia]. }
    destruct (pngToIco pngs) as [ico|e].
    2: { split; [reflexivity|]. exists []. cbn. rewrite app_nil_r.
         split; [reflexivity | lia]. }
    destruct (all_results (entry_result sharp img <$> ICNS_SIZES))
      as [entries|e].
    2: { split.
         - intros path H1 H2. cbn [snd files].
           apply lookup_insert_ne. congruence.
         - exists []. cbn. rewrite app_nil_r. split; [reflexivity | lia]. }
    destruct (buildIcns entries) as [icns|e].
    2: { split.
         - intros path H1 H2. cbn [snd files].
           apply lookup_insert_ne. congruence.
         - exists []. cbn. rewrite app_nil_r. split; [reflexivity | lia]. }
    split.
    + intros path H1 H2. cbn [snd files].
      rewrite !lookup_insert_ne by congruence. reflexivity.
    + eexists. cbn [snd timers]. split; [reflexivity | simpl; lia].
  - split; [reflexivity|]. exists []. cbn. rewrite app_nil_r.
    split; [reflexivity | lia].
Qed.


(** [X4] Whatever the request and its outcome, a conversion leaves every
    file other than its own two as it was, and keeps every pending timer
    in place, arming at most one more. *)
Theorem X4_conversion_touches_only_its_own_files
    (now : Z) (rnd : RandomDraw) (file : option (list byte)) (w : World)
    (path : string) :
  path ≠ artifact_name (conversion_id now rnd) Ico →
  path ≠ artifact_name (conversion_id now rnd) Icns →
  files (snd (convert sharp pngToIco now rnd file w)) !! path = files w !! path
  ∧ ∃ armed : list Timer,
      timers (snd (convert sharp pngToIco now rnd file w)) = timers w ++ armed
      ∧ (List.length armed ≤ 1)%nat.
Proof.
  intros H1 H2. destruct (convert_frame now rnd file w) as [Hfiles Htimers].
  split; [apply Hfiles; assumption | exact Htimers].
Qed.

(** [X8] A conversion request does not change the answer to the download
    of an artifact with a different identifier, whatever the outcome of the
    request: an earlier conversion stays retrievable, byte for byte. *)
Theorem X8_later_conversion_keeps_earlier_artifact
    (now1 now2 : Z) (rnd1 rnd2 : RandomDraw) (file2 : option (list byte))
    (w : World) (kind : Kind) :
  conversion_id now2 rnd2 ≠ conversion_id now1 rnd1 →
  fst (download (artifact_name (conversion_id now1 rnd1) kind)
         (snd (convert sharp pngToIco now2 rnd2 file2 w)))
  = fst (download (artifact_name (conversion_id now1 rnd1) kind) w).
Proof.
  intros Hne. rewrite !download_run.
  destruct (convert_frame now2 rnd2 file2 w) as [Hfiles _].
  rewrite Hfiles.
  - destruct (RegExp_test filename_re _); [|reflexivity].
    destruct (files w !! _); reflexivity.
  - intros Heq. apply artifact_name_inj in Heq as [Heq _]. congruence.
  - intros Heq. apply artifact_name_inj in Heq as [Heq _]. congruence.
Qed.

(** [X10] The .icns file that a successful conversion stores is the
    container, as the specification lays it out, of seven entries: the
    tags are those of the table in its order and each payload is the
    outcome of the resize to the size of its row; the .ico file is the
    output of the ICO encoder on the seven resizes of the ICO table. *)
Theorem X10_stored_files_of_a_conversion
    (now : Z) (rnd : RandomDraw) (file : option (list byte)) (w : World)
    (icoUrl icnsUrl : string) :
  fst (convert sharp pngToIco now rnd file w) = Ok (Json icoUrl icnsUrl) →
  ∃ (img : list byte) (pngs : list (list byte)) (ico : list byte)
    (entries : list IcnsEntry),
    file = Some img
    ∧ Forall2 (fun size png => sharp (resize_request img size) = Ok png)
              ICO_SIZES pngs
    ∧ pngToIco pngs = Ok ico
    ∧ files (snd (convert sharp pngToIco now rnd file w))
        !! artifact_name (conversion_id now rnd) Ico = Some ico
    ∧ osType <$> entries
      = ["icp4"; "icp5"; "icp6"; "ic07"; "ic08"; "ic09"; "ic10"]
    ∧ Forall2 (fun size e => sharp (resize_request img size) = Ok (data e))
              [16; 32; 64; 128; 256; 512; 1024] entries
    ∧ files (snd (convert sharp pngToIco now rnd file w))
        !! artifact_name (conversion_id now rnd) Icns
      = Some (icns_layout entries)
    ∧ Buffer.length (icns_layout entries) = icns_total_length entries.
Proof.
  intros Hok.
  apply convert_Json_inv in Hok
    as (img & pngs & ico & entries & icns & -> & Hpngs & Hico & Hentries
        & Hicns & _ & _ & ->).
  exists img, pngs, ico, entries.
  apply buildIcns_Ok_bound in Hicns as [Hmax ->].
  apply entries_follow_the_table in Hentries as [Hnames Hdata].
  assert (Htags : Forall (fun e => String.length (osType e) = 4%nat) entries).
  { assert (H4 : Forall (fun tag => String.length tag = 4%nat)
                        (osType <$> entries))
      by (rewrite Hnames; repeat constructor).
    apply Forall_fmap in H4. exact H4. }
  assert (Hlayout : ascii_bytes "icns"
                    ++ Buffer.uint32BE (icns_total_length entries)
                    ++ concat (icns_entry_bytes <$> entries)
                    = icns_layout entries).
  { unfold icns_layout. rewrite icns_entry_bytes_layout by assumption.
    reflexivity. }
  split; [reflexivity|]. split.
  { unfold ico_requests in Hpngs. rewrite <- list_fmap_compose in Hpngs.
    apply all_results_Forall2 in Hpngs. exact Hpngs. }
  split; [exact Hico|]. split.
  { cbn [files]. unfold artifact_name.
    rewrite lookup_insert_ne by (intros Heq; symmetry in Heq;
                                 exact (ico_icns_distinct _ Heq)).
    apply lookup_insert_eq. }
  split; [exact Hnames|]. split.
  { change [16; 32; 64; 128; 256; 512; 1024] with (fst <$> ICNS_SIZES).
    apply Forall2_fmap_l. exact Hdata. }
  split.
  { cbn [files]. unfold artifact_name. rewrite lookup_insert_eq, Hlayout.
    reflexivity. }
  rewrite <- Hlayout. apply buildIcns_length.
Qed.

End HandlerProperties.

(** [X5] A download changes neither the files nor the timers, whatever the
    name asked for, so asking again gives the same answer. *)
Theorem X5_download_is_read_only (filename : string) (w : World) :
  files (snd (download filename w)) = files w
  ∧ timers (snd (download filename w)) = timers w
  ∧ fst (download filename (snd (download filename w)))
    = fst (download filename w).
Proof.
  assert (Hsame : files (snd (download filename w)) = files w
                  ∧ timers (snd (download filename w)) = timers w).
  { rewrite download_run.
    destruct (RegExp_test filename_re filename); [|split; reflexivity].
    destruct (files w !! filename); split; reflexivity. }
  destruct Hsame as [Hf Ht]. split; [exact Hf|]. split; [exact Ht|].
  rewrite (download_run filename (snd (download filename w))), Hf.
  rewrite (download_run filename w).
  destruct (RegExp_test filename_re filename); [|reflexivity].
  destruct (files w !! filename); reflexivity.
Qed.

(** [X6] A timer that fires deletes nothing but the two files it was armed
    for and leaves the other timers pending, in their order: the download
    of any other file answers as before. *)
Theorem X6_expiry_touches_only_its_own_files
    (i : nat) (t : Timer) (w : World) (path : string) :
  timers w !! i = Some t →
  path ≠ timer_icoPath t →
  path ≠ timer_icnsPath t →
  files (fire_timer i w) !! path = files w !! path
  ∧ timers (fire_timer i w) = delete i (timers w)
  ∧ fst (download path (fire_timer i w)) = fst (download path w).
Proof.
  intros Ht H1 H2. destruct (fire_timer_run i t w Ht) as [Hf Htm].
  assert (Hpath : files (fire_timer i w) !! path = files w !! path)
    by (rewrite Hf, !lookup_delete_ne by congruence; reflexivity).
  split; [exact Hpath|]. split; [exact Htm|].
  rewrite !download_run, Hpath.
  destruct (RegExp_test filename_re path); [|reflexivity].
  destruct (files w !! path); reflexivity.
Qed.

Lemma X6_witness :
  files (fire_timer 0
           {| files := {[ "a.ico" := [x00]; "b.ico" := [x01] ]};
              timers := [ {| delay := 300000; timer_icoPath := "a.ico";
                             timer_icnsPath := "a.icns" |} ];
              calls := [] |}) !! "b.ico"
  = Some [x01].
Proof.
  etransitivity.
  - apply (X6_expiry_touches_only_its_own_files 0
             {| delay := 300000; timer_icoPath := "a.ico";
                timer_icnsPath := "a.icns" |} _ "b.ico");
      [reflexivity | discriminate | discriminate].
  - vm_compute. reflexivity.
Defined.

(** [X9] The download route goes on to the store for exactly the names
    made of one or more lowercase letters and digits followed by ".ico" or
    ".icns"; in particular a name with a directory separator, an uppercase
    letter or a second point is turned away with status 400. *)
Theorem X9_names_that_reach_the_store (filename : string) (w : World) :
  fst (download filename w) ≠ Ok (Status 400 "Invalid filename")
  ↔ ∃ (id : string) (kind : Kind),
      well_formed_id id ∧ filename = artifact_name id kind.
Proof.
  rewrite download_run. split.
  - destruct (RegExp_test filename_re filename) eqn:Hre;
      [|intros Hne; exfalso; apply Hne; reflexivity].
    intros _. apply filename_re_spec in Hre as (id & Hid & [-> | ->]).
    + exists id, Ico. split; [assumption | reflexivity].
    + exists id, Icns. split; [assumption | reflexivity].
  - intros (id & kind & Hid & ->).
    destruct (well_formed_id_accepted id Hid) as [Hico Hicns].
    assert (Hre : RegExp_test filename_re (artifact_name id kind) = true)
      by (destruct kind; assumption).
    rewrite Hre. destruct (files w !! artifact_name id kind); discriminate.
Qed.

Section LifeCycle.

Variable sharp : ResizeRequest → result (list byte).
Variable pngToIco : list (list byte) → result (list byte).

(** [X7] When the two file names of a successful conversion were free
    before it, the firing of its timer puts the store back exactly as it
    was before the conversion, files and timers alike. *)
Theorem X7_expiry_undoes_the_conversion
    (now : Z) (rnd : RandomDraw) (file : option (list byte)) (w : World)
    (icoUrl icnsUrl : string) :
  fst (convert sharp pngToIco now rnd file w) = Ok (Json icoUrl icnsUrl) →
  files w !! artifact_name (conversion_id now rnd) Ico = None →
  files w !! artifact_name (conversion_id now rnd) Icns = None →
  files (fire_timer (List.length (timers w))
           (snd (convert sharp pngToIco now rnd file w))) = files w
  ∧ timers (fire_timer (List.length (timers w))
              (snd (convert sharp pngToIco now rnd file w))) = timers w.
Proof.
  intros Hok Hfree1 Hfree2. unfold artifact_name in Hfree1, Hfree2.
  apply convert_Json_inv in Hok
    as (img & pngs & ico & entries & icns & _ & _ & _ & _ & _ & _ & _ & ->).
  set (t := {| delay := 300000;
               timer_icoPath := conversion_id now rnd +:+ ".ico";
               timer_icnsPath := conversion_id now rnd +:+ ".icns" |}).
  match goal with
  | |- context [fire_timer _ ?w1] =>
      destruct (fire_timer_run (List.length (timers w)) t w1) as [Hf Htm]
  end.
  { cbn [timers]. apply list_lookup_middle. reflexivity. }
  rewrite Hf, Htm. cbn [files timers timer_icoPath timer_icnsPath t]. split.
  - apply map_eq. intros k.
    rewrite !lookup_delete, !lookup_insert.
    repeat case_decide; subst; congruence.
  - change (timers w ++ [t]) with (timers w ++ t :: []).
    rewrite delete_middle. apply app_nil_r.
Qed.

End LifeCycle.

(** *** The name under which the page saves an icon *)

Lemma lang_extension_re (w : list ascii) :
  lang extension_re w
  ↔ ∃ ext, w = "."%char :: ext ∧ ext ≠ []
           ∧ Forall (fun c => word_char c = true) ext.
Proof.
  unfold extension_re, Chr. split.
  - intros H. apply lang_Seq_inv in H as (w1 & w2 & -> & H1 & H2).
    apply lang_Class_inv in H1 as (c & -> & Hc).
    apply Ascii.eqb_eq in Hc as <-.
    apply lang_Plus_Class in H2 as [Hne Hall]. eauto.
  - intros (ext & -> & Hne & Hall).
    apply (lang_Seq _ _ ["."%char] ext); [constructor; reflexivity|].
    apply lang_Plus_Class. split; assumption.
Qed.

Lemma replace_to_end_extension (replacement ext : list ascii) :
  ext ≠ [] → Forall (fun c => word_char c = true) ext →
  ∀ base : list ascii,
    replace_to_end extension_re replacement (base ++ "."%char :: ext)
    = base ++ replacement.
Proof.
  intros Hne Hext base. induction base as [|c base IH].
  - destruct ext as [|e ext]; [congruence|]. cbn [app replace_to_end].
    assert (Hm : matches extension_re ("."%char :: e :: ext) = true).
    { apply matches_lang, lang_extension_re. eauto. }
    rewrite Hm. reflexivity.
  - cbn [app replace_to_end].
    destruct (matches extension_re (c :: base ++ "."%char :: ext)) eqn:Hm.
    + apply matches_lang, lang_extension_re in Hm
        as (ext' & [= -> <-] & _ & Hall).
      apply Forall_app in Hall as [_ Hall].
      apply Forall_cons in Hall as [Hdot _]. discriminate Hdot.
    + rewrite IH. reflexivity.
Qed.

Lemma replace_to_end_no_extension (replacement : list ascii) :
  ∀ w : list ascii,
    (∀ base ext, w = base ++ "."%char :: ext →
                 ext = [] ∨ ¬ Forall (fun c => word_char c = true) ext) →
    replace_to_end extension_re replacement w = w.
Proof.
  induction w as [|c w IH]; intros Hno; [reflexivity|].
  cbn [replace_to_end].
  destruct (matches extension_re (c :: w)) eqn:Hm.
  - apply matches_lang, lang_extension_re in Hm as (ext & [= -> ->] & Hne & Hall).
    destruct (Hno [] ext eq_refl) as [Hnil | Hnot]; [congruence | tauto].
  - f_equal. apply IH. intros base ext ->.
    apply (Hno (c :: base) ext). reflexivity.
Qed.

(** [X11] When the name of the selected file ends in a point followed by
    one or more letters, digits or underscores, the icon is saved under
    that name with this last extension, and only it, replaced by the
    extension of the icon. *)
Theorem X11_download_name_replaces_the_extension
    (f : Home.File) (base ext extension : string) :
  Home.name f = base +:+ "." +:+ ext →
  ext ≠ "" →
  Forall (fun c => word_char c = true) (list_ascii_of_string ext) →
  Home.download_name f extension = base +:+ extension.
Proof.
  intros Hname Hne Hext.
  unfold Home.download_name, String_replace_to_end.
  rewrite Hname, !list_ascii_of_string_app.
  change (list_ascii_of_string "." ++ list_ascii_of_string ext)
    with ("."%char :: list_ascii_of_string ext).
  rewrite replace_to_end_extension; [| |assumption].
  - rewrite string_of_list_ascii_app, !string_of_list_ascii_of_string.
    reflexivity.
  - destruct ext; [congruence | discriminate].
Qed.

Lemma X11_witness :
  Home.download_name
    {| Home.name := "my.logo.v2.jpeg"; Home.type := "image/jpeg";
       Home.size := 2048 |} ".icns"
  = "my.logo.v2.icns".
Proof.
  apply (X11_download_name_replaces_the_extension _ "my.logo.v2" "jpeg");
    [reflexivity | discriminate | repeat constructor].
Defined.

(** [X12] When the name of the selected file does not end in a point
    followed by one or more letters, digits or underscores (a name without
    a point, or one that ends in a point or in an extension with a hyphen
    or a space), the icon is saved under the name of the file unchanged,
    without the extension of the icon. *)
Theorem X12_download_name_without_extension
    (f : Home.File) (extension : string) :
  (∀ base ext : string,
     Home.name f = base +:+ "." +:+ ext →
     ext = ""
     ∨ ¬ Forall (fun c => word_char c = true) (list_ascii_of_string ext)) →
  Home.download_name f extension = Home.name f.
Proof.
  intros Hno. unfold Home.download_name, String_replace_to_end.
  rewrite replace_to_end_no_extension;
    [apply string_of_list_ascii_of_string|].
  intros base ext Hw.
  destruct (Hno (string_of_list_ascii base) (string_of_list_ascii ext))
    as [Hnil | Hnot].
  - apply list_ascii_of_string_inj.
    rewrite !list_ascii_of_string_app, !list_ascii_of_string_of_list_ascii.
    exact Hw.
  - left. apply (f_equal list_ascii_of_string) in Hnil.
    rewrite list_ascii_of_string_of_list_ascii in Hnil. exact Hnil.
  - right. rewrite list_ascii_of_string_of_list_ascii in Hnot. exact Hnot.
Qed.

Lemma X12_witness :
  Home.download_name
    {| Home.name := "icon"; Home.type := "image/png"; Home.size := 2048 |}
    ".ico"
  = "icon".
Proof.
  apply X12_download_name_without_extension. cbn [Home.name].
  intros base ext Hname. exfalso.
  assert (Hdot : "."%char ∈ list_ascii_of_string "icon").
  { rewrite Hname, !list_ascii_of_string_app.
    apply elem_of_app. right. apply elem_of_app. left.
    apply list_elem_of_singleton. reflexivity. }
  apply list_elem_of_In in Hdot. simpl in Hdot.
  intuition discriminate.
Defined.

(** *** Invariants of the page *)

Ltac page_cases :=
  unfold Home.handle, Home.inputChange, Home.handleDrop, Home.handleFile,
    Home.handleConvert_start, Home.handleConvert_settle,
    Home.conversion_failed, Home.handleReset, Home.clickDownload,
    Home.handleDownload, Home.previewLoaded, Home.setDragOver, Home.toast
    in *;
  repeat case_match; simpl in *.

Lemma run_snoc (events : list Home.Event) (e : Home.Event) (s : Home.State) :
  Home.run (events ++ [e]) s = Home.handle e (Home.run events s).
Proof. unfold Home.run. rewrite fold_left_app. reflexivity. Qed.

Lemma handle_keeps_file_valid (e : Home.Event) (s : Home.State) :
  (∀ f, Home.file s = Some f →
        Home.type f ∈ Home.validTypes ∧ Home.size f <= 10 * 1024 * 1024) →
  ∀ f, Home.file (Home.handle e s) = Some f →
       Home.type f ∈ Home.validTypes ∧ Home.size f <= 10 * 1024 * 1024.
Proof.
  intros Hs f. page_cases; intros Hf; try discriminate;
    try (apply Hs; congruence).
  all: injection Hf as <-; split;
    [ match goal with
      | H : negb (bool_decide _) = false |- _ =>
          apply negb_false_iff, bool_decide_eq_true in H; exact H
      end
    | lia ].
Qed.

(** [X13] Whatever happens to the page, a file it holds as selected has one
    of the three accepted types and at most 10 * 1024 * 1024 bytes.  Hence
    the upload filter of the server accepts its type, its size is within
    the limit given to multer, and the type badge always has a label to
    print: png, jpeg or jpg. *)
Theorem X13_selected_file_is_always_valid
    (events : list Home.Event) (f : Home.File) :
  Home.file (Home.run events Home.initial) = Some f →
  Home.type f ∈ ["image/png"; "image/jpeg"; "image/jpg"]
  ∧ Home.size f <= 10 * 1024 * 1024
  ∧ fileFilter (Home.type f) = Accepted
  ∧ Home.size f <= fileSize
  ∧ ∃ label : string,
      Home.type_label f = Some label ∧ label ∈ ["png"; "jpeg"; "jpg"].
Proof.
  revert f. induction events as [|e events IH] using rev_ind; intros f Hf.
  - discriminate Hf.
  - rewrite run_snoc in Hf.
    assert (Hvalid : Home.type f ∈ Home.validTypes
                     ∧ Home.size f <= 10 * 1024 * 1024).
    { revert f Hf. apply handle_keeps_file_valid.
      intros f0 Hf0. destruct (IH f0 Hf0) as (H1 & H2 & _).
      split; assumption. }
    destruct Hvalid as [Htype Hsize].
    split; [exact Htype|]. split; [exact Hsize|].
    split; [|split; [exact Hsize|]].
    + unfold fileFilter. rewrite bool_decide_eq_true_2; [reflexivity|].
      exact Htype.
    + unfold Home.type_label.
      apply list_elem_of_In in Htype. simpl in Htype.
      destruct Htype as [<- | [<- | [<- | []]]]; eexists;
        (split; [reflexivity | apply list_elem_of_In; simpl; auto]).
Qed.

Lemma X13_witness :
  Home.type_label
    {| Home.name := "logo.jpeg"; Home.type := "image/jpeg";
       Home.size := 10485760 |}
  = Some "jpeg".
Proof.
  destruct (X13_selected_file_is_always_valid
              [ Home.DragOver;
                Home.Drop [ {| Home.name := "logo.jpeg";
                               Home.type := "image/jpeg";
                               Home.size := 10485760 |} ] ]
              {| Home.name := "logo.jpeg"; Home.type := "image/jpeg";
                 Home.size := 10485760 |} eq_refl)
    as (_ & _ & _ & _ & label & Hlabel & _).
  reflexivity.
Defined.

(** [X14] Whatever happens to the page, when its state is [done] both
    download addresses are set, and they are the two addresses of one ok
    response that the page has received; and at any time the two addresses
    are set together or not at all. *)
Theorem X14_done_means_both_addresses (events : list Home.Event) :
  (Home.convertState (Home.run events Home.initial) = Home.done →
   ∃ ico icns : string,
     Home.icoUrl (Home.run events Home.initial) = Some ico
     ∧ Home.icnsUrl (Home.run events Home.initial) = Some icns
     ∧ Home.Settle (Home.ResponseOk ico icns) ∈ events)
  ∧ (Home.icoUrl (Home.run events Home.initial) = None
     ↔ Home.icnsUrl (Home.run events Home.initial) = None).
Proof.
  induction events as [|e events [IH1 IH2]] using rev_ind.
  - split; [discriminate | split; reflexivity].
  - rewrite run_snoc. set (s := Home.run events Home.initial) in *.
    clearbody s. split.
    + intros Hdone.
      assert (Hcases :
        (e = Home.Settle
               (match Home.icoUrl (Home.handle e s), Home.icnsUrl (Home.handle e s) with
                | Some ico, Some icns => Home.ResponseOk ico icns
                | _, _ => Home.FetchThrows ""
                end)
         ∧ is_Some (Home.icoUrl (Home.handle e s))
         ∧ is_Some (Home.icnsUrl (Home.handle e s)))
        ∨ (Home.convertState s = Home.done
           ∧ Home.icoUrl (Home.handle e s) = Home.icoUrl s
           ∧ Home.icnsUrl (Home.handle e s) = Home.icnsUrl s)).
      { revert Hdone. page_cases; intros Hdone; simplify_eq;
          solve [ right; auto | left; repeat split; eauto ]. }
      destruct Hcases as [(He & [ico Hico] & [icns Hicns]) | (Hd & Hi & Hn)].
      * rewrite Hico, Hicns in He. exists ico, icns.
        split; [assumption|]. split; [assumption|].
        rewrite <- He. apply elem_of_app. right.
        apply list_elem_of_singleton. reflexivity.
      * destruct (IH1 Hd) as (ico & icns & Hico & Hicns & Hin).
        exists ico, icns. rewrite Hi, Hn.
        split; [assumption|]. split; [assumption|].
        apply elem_of_app. left. exact Hin.
    + revert IH2. page_cases; intros IH2; try exact IH2;
        split; congruence.
Qed.



(** *** Runs that meet the hypotheses above *)


Lemma X4_witness :
  files (snd (convert sample_sharp sample_pngToIco 1771459200000 sample_draw
                (Some [x01])
                {| files := {[ "other.ico" := [x07] ]}; timers := [];
                   calls := [] |})) !! "other.ico"
  = Some [x07].
Proof.
  edestruct (X4_conversion_touches_only_its_own_files
               sample_sharp sample_pngToIco 1771459200000 sample_draw
               (Some [x01])
               {| files := {[ "other.ico" := [x07] ]}; timers := [];
                  calls := [] |} "other.ico") as [Hfile _].
  - intros Heq. vm_compute in Heq. discriminate Heq.
  - intros Heq. vm_compute in Heq. discriminate Heq.
  - rewrite Hfile. reflexivity.
Defined.

Lemma X7_witness :
  files (fire_timer 0
           (snd (convert sample_sharp sample_pngToIco 1771459200000
                   sample_draw (Some [x01]) empty_world))) = ∅.
Proof.
  destruct (X7_expiry_undoes_the_conversion
              sample_sharp sample_pngToIco 1771459200000 sample_draw
              (Some [x01]) empty_world _ _ sample_conversion_runs
              eq_refl eq_refl) as [Hfiles _].
  exact Hfiles.
Defined.

Lemma X8_witness :
  fst (download (artifact_name (conversion_id 1771459200000 sample_draw) Ico)
         (snd (convert sample_sharp_small sample_pngToIco 1771459200001
                 sample_draw (Some [x02])
                 (snd (convert sample_sharp sample_pngToIco 1771459200000
                         sample_draw (Some [x01]) empty_world)))))
  = fst (download (artifact_name (conversion_id 1771459200000 sample_draw) Ico)
           (snd (convert sample_sharp sample_pngToIco 1771459200000
                   sample_draw (Some [x01]) empty_world))).
Proof.
  apply X8_later_conversion_keeps_earlier_artifact.
  intros Heq. vm_compute in Heq. discriminate Heq.
Defined.

Lemma X10_witness :
  ∃ entries : list IcnsEntry,
    files (snd (convert sample_sharp sample_pngToIco 1771459200000
                  sample_draw (Some [x01]) empty_world))
      !! artifact_name (conversion_id 1771459200000 sample_draw) Icns
    = Some (icns_layout entries)
    ∧ osType <$> entries
      = ["icp4"; "icp5"; "icp6"; "ic07"; "ic08"; "ic09"; "ic10"].
Proof.
  destruct (X10_stored_files_of_a_conversion
              sample_sharp sample_pngToIco 1771459200000 sample_draw
              (Some [x01]) empty_world _ _ sample_conversion_runs)
    as (img & pngs & ico & entries & _ & _ & _ & _ & Hnames & _ & Hfile & _).
  exists entries. split; [exact Hfile | exact Hnames].
Defined.

Lemma X14_witness :
  ∃ ico : string,
    Home.icoUrl
      (Home.run
         [ Home.InputChange [ {| Home.name := "logo.png";
                                 Home.type := "image/png";
                                 Home.size := 4096 |} ];
           Home.ClickConvert;
           Home.Settle (Home.ResponseOk "/api/download/a1.ico"
                                        "/api/download/a1.icns") ]
         Home.initial)
    = Some ico.
Proof.
  destruct (X14_done_means_both_addresses
              [ Home.InputChange [ {| Home.name := "logo.png";
                                      Home.type := "image/png";
                                      Home.size := 4096 |} ];
                Home.ClickConvert;
                Home.Settle (Home.ResponseOk "/api/download/a1.ico"
                                             "/api/download/a1.icns") ])
    as [Hdone _].
  destruct (Hdone eq_refl) as (ico & icns & Hico & _).
  exists ico. exact Hico.
Defined.
